(** * WattpadDownloader: [src/api/src/create_book.py]

    A shallow embedding of the story fetch-and-assemble pipeline and of the
    [slugify] utility, with the properties of the design document stated
    and settled against it.

    Python [str] values are lists of Unicode code points, [bytes] values
    are lists of [Byte.byte], [dict]s used as maps are [gmap]s.  The
    coroutines run in a small state-and-exception monad over a world that
    holds the chronological log of observable effects (HTTP requests,
    sleeps, prints, generator yields, mutations of the book) and the
    [EpubBook] object under construction. *)

From Stdlib Require Import ZArith NArith Lia ZifyBool Strings.Byte Strings.Ascii.
From stdpp Require Import base gmap strings list.

Local Open Scope N_scope.

(** ** Python strings *)

(** A [str] is its sequence of code points. *)
Abbreviation pystr := (list N).

(** An ASCII literal as a [str]. *)
Definition lit (s : string) : pystr :=
  map N_of_ascii (String.list_ascii_of_string s).

Definition hyphen : N := 45.
Definition underscore : N := 95.

Definition is_ascii (c : N) : bool := c <? 128.

Definition ascii_upper (c : N) : bool := (65 <=? c) && (c <=? 90).
Definition ascii_lower (c : N) : bool := (97 <=? c) && (c <=? 122).
Definition ascii_digit (c : N) : bool := (48 <=? c) && (c <=? 57).
Definition ascii_alnum (c : N) : bool :=
  ascii_digit c || ascii_upper c || ascii_lower c.

(** [str.lower] on one ASCII code point. *)
Definition ascii_tolower (c : N) : N := if ascii_upper c then c + 32 else c.

(** [str.isspace] of one code point, which is also what [\s] matches in a
    [str] pattern: the ASCII white space with the four separators
    U+001C..U+001F, and the Unicode white space outside ASCII. *)
Definition py_isspace (c : N) : bool :=
  ((9 <=? c) && (c <=? 13)) || ((28 <=? c) && (c <=? 32))
  || (c =? 0x85) || (c =? 0xA0) || (c =? 0x1680)
  || ((0x2000 <=? c) && (c <=? 0x200A))
  || (c =? 0x2028) || (c =? 0x2029) || (c =? 0x202F) || (c =? 0x205F)
  || (c =? 0x3000).

(** The part of the Unicode character database that [slugify] reaches
    through [unicodedata.normalize], [str.lower] and the [\w] class, and
    that is table-driven outside ASCII. *)
Class UnicodeData := {
  (** [unicodedata.normalize("NFKD", s)] *)
  nfkd : pystr -> pystr;
  (** [unicodedata.normalize("NFKC", s)] *)
  nfkc : pystr -> pystr;
  (** [s.lower()] for a string that is not pure ASCII (full case mapping,
      context sensitive) *)
  uni_lower : pystr -> pystr;
  (** [c.isalnum()] for a code point outside ASCII *)
  uni_alnum : N -> bool;
}.

Section Slugify.
Context {U : UnicodeData}.

(** [s.lower()]: an ASCII string maps [A-Z] to [a-z]; any other string
    goes through the Unicode case mapping. *)
Definition py_lower (s : pystr) : pystr :=
  if forallb is_ascii s then map ascii_tolower s else uni_lower s.

(** [\w] in a [str] pattern: alphanumeric or underscore. *)
Definition re_word (c : N) : bool :=
  if is_ascii c then ascii_alnum c || (c =? underscore) else uni_alnum c.

(** [\s] in a [str] pattern. *)
Definition re_space (c : N) : bool := py_isspace c.

(** [s.encode("ascii", "ignore")]: code points outside ASCII are dropped. *)
Definition encode_ascii_ignore (s : pystr) : list byte :=
  omap (fun c => if is_ascii c then Byte.of_N c else None) s.

(** [b.decode("ascii")]: fails on a byte outside ASCII. *)
Definition decode_ascii (b : list byte) : option pystr :=
  mapM (fun x => let c := Byte.to_N x in
                 if is_ascii c then Some c else None) b.

(** [re.sub(r"[^\w\s-]", "", s)]: every code point outside the class
    [\w\s-] is deleted. *)
Definition keep_char (c : N) : bool :=
  re_word c || re_space c || (c =? hyphen).
Definition re_sub_strip_class (s : pystr) : pystr :=
  filter (fun c => keep_char c = true) s.

(** [re.sub(r"[-\s]+", "-", s)]: every maximal run of hyphens and white
    space becomes one hyphen.  [in_run] tells that the previous code
    point belonged to a run whose hyphen has been written. *)
Definition sep_char (c : N) : bool := (c =? hyphen) || re_space c.
Fixpoint collapse_runs (in_run : bool) (s : pystr) : pystr :=
  match s with
  | [] => []
  | c :: s' =>
      if sep_char c
      then if in_run then collapse_runs true s'
           else hyphen :: collapse_runs true s'
      else c :: collapse_runs false s'
  end.
Definition re_sub_runs (s : pystr) : pystr := collapse_runs false s.

(** [s.strip("-_")] *)
Definition strip_char (c : N) : bool := (c =? hyphen) || (c =? underscore).
Fixpoint lstrip (s : pystr) : pystr :=
  match s with
  | [] => []
  | c :: s' => if strip_char c then lstrip s' else s
  end.
Definition rstrip (s : pystr) : pystr := reverse (lstrip (reverse s)).
Definition strip (s : pystr) : pystr := rstrip (lstrip s).

(** [slugify(value, allow_unicode=False)], lines 107-127. *)
Definition slugify (value : pystr) (allow_unicode : bool) : pystr :=
  let value :=
    if allow_unicode then nfkc value
    else match decode_ascii (encode_ascii_ignore (nfkd value)) with
         | Some v => v
         | None => [] (* never taken: see [decode_encode_ascii] *)
         end in
  let value := re_sub_strip_class (py_lower value) in
  strip (re_sub_runs value).

End Slugify.

(** ** A fragment of the Unicode data that computes

    ASCII (stable under every normalisation form) and the Hangul blocks,
    whose decomposition and composition are arithmetic (Unicode Standard,
    section 3.12): conjoining jamo U+1100..U+11FF and the precomposed
    syllables U+AC00..U+D7A3.  On strings over these code points the
    functions below are the ones of the Unicode character database;
    outside them the fragment normalises nothing and takes no code point
    for alphanumeric. *)
Module Hangul.
Definition SBase : N := 0xAC00.
Definition LBase : N := 0x1100.
Definition VBase : N := 0x1161.
Definition TBase : N := 0x11A7.
Definition LCount : N := 19.
Definition VCount : N := 21.
Definition TCount : N := 28.
Definition NCount : N := 588.
Definition SCount : N := 11172.

Definition is_syllable (c : N) : bool := (SBase <=? c) && (c <? SBase + SCount).
Definition is_L (c : N) : bool := (LBase <=? c) && (c <? LBase + LCount).
Definition is_V (c : N) : bool := (VBase <=? c) && (c <? VBase + VCount).
Definition is_T (c : N) : bool := (TBase <? c) && (c <? TBase + TCount).
Definition is_LV (c : N) : bool :=
  is_syllable c && ((c - SBase) mod TCount =? 0).

Definition decompose (c : N) : pystr :=
  if is_syllable c then
    let i := c - SBase in
    let l := LBase + i / NCount in
    let v := VBase + (i mod NCount) / TCount in
    let t := TBase + i mod TCount in
    if t =? TBase then [l; v] else [l; v; t]
  else [c].

(** One step of the composition pass; [acc] is the output so far, last
    code point first. *)
Definition compose_step (acc : pystr) (c : N) : pystr :=
  match acc with
  | p :: acc' =>
      if is_L p && is_V c
      then SBase + ((p - LBase) * VCount + (c - VBase)) * TCount :: acc'
      else if is_LV p && is_T c then p + (c - TBase) :: acc'
      else c :: acc
  | [] => [c]
  end.

Definition compose (s : pystr) : pystr :=
  reverse (fold_left compose_step s []).

Definition is_hangul (c : N) : bool :=
  ((0x1100 <=? c) && (c <=? 0x11FF)) || is_syllable c.
End Hangul.

Definition hangul_ucd : UnicodeData := {|
  nfkd s := flat_map Hangul.decompose s;
  nfkc s := Hangul.compose (flat_map Hangul.decompose s);
  uni_lower s := map ascii_tolower s;
  uni_alnum c := Hangul.is_hangul c;
|}.

(** ** Data of the pipeline *)

(** Cookie jars and credentials: [dict] from cookie name to value. *)
Abbreviation cookies := (gmap string string).

(** [parts(id,title)] of the story record. *)
Record part_ref := { part_id : Z; part_title : pystr }.

(** The fields of the story record read by the cover and chapter steps:
    [data["parts"]], [data["language"]["name"]], [data["cover"]]. *)
Record story := {
  story_parts : list part_ref;
  story_language_name : pystr;
  story_cover : pystr;
}.

(** What [retrieve_story] returns: the decoded body, or [{}]. *)
Inductive story_dict := EmptyDict | StoryDict (s : story).

(** The four URLs of the module. *)
Inductive target :=
| LoginUrl                   (* https://www.wattpad.com/auth/login?... *)
| StoryUrl (story_id : Z)    (* .../api/v3/stories/{story_id}?fields=... *)
| StoryTextUrl (part_id : Z) (* .../apiv2/?m=storytext&id={part_id} *)
| Url (u : pystr).           (* the cover URL of the story record *)

Inductive http_method := GET | POST.

Record request := {
  rq_method : http_method;
  rq_target : target;
  rq_cookies : cookies;                 (* cookies of the [CachedSession] *)
  rq_data : list (string * pystr);      (* form body *)
}.

(** What [await response.json()] does with the response: it checks the
    content type first, then decodes the body. *)
Inductive json_body :=
| JsonValue (d : story_dict)  (* a JSON content type, the decoded body *)
| JsonInvalid                 (* a JSON content type, a body that does not
                                 decode: [json.JSONDecodeError] *)
| JsonWrongType.              (* another content type:
                                 [aiohttp.ContentTypeError] *)

Record response := {
  status : Z;
  resp_cookies : cookies;    (* name to morsel value of [response.cookies] *)
  resp_text : pystr;         (* [await response.text()] *)
  resp_json : json_body;     (* [await response.json()] *)
  resp_read : list byte;     (* [await response.read()] *)
}.

(** [response.ok] *)
Definition ok (r : response) : bool := (status r <? 400)%Z.

(** [response.status in [404, 400]] *)
Definition status_not_found (r : response) : bool :=
  ((status r =? 404) || (status r =? 400))%Z.

(** ** The book (ebooklib) *)

Record EpubHtml := {
  title : pystr;
  file_name : pystr;
  lang : pystr;
  content : pystr;
}.

Inductive item :=
| HtmlItem (ch : EpubHtml)
| NcxItem                                   (* [epub.EpubNcx()], uid "ncx" *)
| NavItem                                   (* [epub.EpubNav()], uid "nav" *)
| CoverItem (name : pystr) (img : list byte)
| CoverHtmlItem (image_name : pystr).

(** An entry of [book.spine]: an item, or the uid of one. *)
Inductive spine_entry := SpineId (uid : string) | SpineItem (ch : EpubHtml).

Record EpubBook := {
  items : list item;
  toc : list EpubHtml;
  spine : list spine_entry;
  metadata : list (string * string);
}.

(** The mutations of the book made by this module. *)
Inductive book_op :=
| AddItem (it : item)                        (* [book.add_item(it)] *)
| SetCover (name : pystr) (img : list byte)  (* [book.set_cover(name, img)] *)
| SetToc (chs : list EpubHtml)               (* [book.toc = tuple(chs)] *)
| SetSpine (sp : list spine_entry).          (* [book.spine = sp] *)

Definition apply_op (op : book_op) (b : EpubBook) : EpubBook :=
  match op with
  | AddItem it =>
      {| items := items b ++ [it]; toc := toc b; spine := spine b;
         metadata := metadata b |}
  | SetCover name img =>
      {| items := items b ++ [CoverItem name img; CoverHtmlItem name];
         toc := toc b; spine := spine b;
         metadata := metadata b ++ [("cover", "cover-img")] |}
  | SetToc chs =>
      {| items := items b; toc := chs; spine := spine b;
         metadata := metadata b |}
  | SetSpine sp =>
      {| items := items b; toc := toc b; spine := sp;
         metadata := metadata b |}
  end.

(** ** Effects *)

Inductive event :=
| Sent (rq : request)                    (* one HTTP request *)
| Slept (secs : Z)                       (* [asyncio.sleep(secs)] *)
| Printed (c : cookies) (text : pystr)   (* [print(...)] *)
| Yielded (t : pystr)                    (* a value handed to the consumer *)
| Mutated (op : book_op).                (* a mutation of the book *)

Record world := { events : list event; book : EpubBook }.

Inductive exn :=
| ValueError (msg : string) (arg : option Z)
| JSONDecodeError            (* a subclass of [ValueError] *)
| TimeoutError               (* [asyncio.TimeoutError] *)
| KeyError (key : string)
| ContentTypeError.          (* [aiohttp.ContentTypeError], a
                                [ClientResponseError], not a [ValueError] *)

Definition is_ValueError (e : exn) : bool :=
  match e with
  | ValueError _ _ | JSONDecodeError => true
  | TimeoutError | KeyError _ | ContentTypeError => false
  end.

Inductive result (A : Type) := Ok (a : A) | Raise (e : exn).
Arguments Ok {A} a.
Arguments Raise {A} e.

(** A coroutine: runs from a world to an outcome and the world it leaves.
    Effects made before an exception stay. *)
Definition M (A : Type) : Type := world → result A * world.

#[global] Instance M_ret : MRet M := λ A a w, (Ok a, w).
#[global] Instance M_bind : MBind M := λ A B f m w,
  match m w with
  | (Ok a, w') => f a w'
  | (Raise e, w') => (Raise e, w')
  end.

Definition raise {A} (e : exn) : M A := λ w, (Raise e, w).

Definition emit (ev : event) : M unit :=
  λ w, (Ok (), {| events := events w ++ [ev]; book := book w |}).

Definition mutate (op : book_op) : M unit :=
  λ w, (Ok (), {| events := events w ++ [Mutated op];
                  book := apply_op op (book w) |}).

(** [try: body except ValueError: handler] *)
Definition try_except_ValueError {A} (body handler : M A) : M A := λ w,
  match body w with
  | (Raise e, w') => if is_ValueError e then handler w' else (Raise e, w')
  | r => r
  end.

(** [for x in xs: f x] *)
Fixpoint for_each {A} (f : A → M unit) (xs : list A) : M unit :=
  match xs with
  | [] => mret ()
  | x :: xs' => f x ;; for_each f xs'
  end.

(** The transport: the response to a request, given everything that
    happened before it. *)
Class Network := transport : list event → request → response.

Section Pipeline.
Context {U : UnicodeData} {Net : Network}.

(** [session.get] / [session.post] on a [CachedSession] with the given
    cookies. *)
Definition send (rq : request) : M response :=
  λ w, (Ok (transport (events w) rq),
        {| events := events w ++ [Sent rq]; book := book w |}).

Definition get (t : target) (c : cookies) : request :=
  {| rq_method := GET; rq_target := t; rq_cookies := c; rq_data := [] |}.

Definition login_request (username password : pystr) : request :=
  {| rq_method := POST; rq_target := LoginUrl; rq_cookies := ∅;
     rq_data := [("username", py_lower username); ("password", password)] |}.

(** [wp_get_cookies], lines 18-51. *)
Definition wp_get_cookies (username password : pystr) : M cookies :=
  response ← send (login_request username password);
  if negb (status response =? 204)%Z then raise (ValueError "Not a 204." None)
  else
    emit (Printed (resp_cookies response) (resp_text response)) ;;
    let cookies := resp_cookies response in
    if decide (cookies = ∅) then raise (ValueError "No cookies." None)
    else mret cookies.

(** The body of [retrieve_story], lines 54-76, with the recursive call
    made through [self]. *)
Definition retrieve_story_body
    (self : Z → bool → cookies → M story_dict)
    (story_id : Z) (retry : bool) (cookies : cookies) : M story_dict :=
  try_except_ValueError
    (response ← send (get (StoryUrl story_id) cookies);
     if negb (ok response) then
       if status_not_found response then mret EmptyDict
       else raise (ValueError "Status Code:" (Some (status response)))
     else
       match resp_json response with
       | JsonValue body => mret body
       | JsonInvalid => raise JSONDecodeError
       | JsonWrongType => raise ContentTypeError
       end)
    (if negb retry then raise TimeoutError
     else emit (Slept 15) ;; self story_id false ∅).

(** [retrieve_story]: the call at line 74 passes [retry=False], and a
    call with [retry=False] makes no further call, so two unfoldings of
    the body close the recursion ([retrieve_story_unfold]). *)
Definition retrieve_story : Z → bool → cookies → M story_dict :=
  retrieve_story_body (retrieve_story_body (λ _ _ _, raise TimeoutError)).

(** [fetch_part_content], lines 79-91. *)
Definition fetch_part_content (part_id : Z) (retry : bool) (cookies : cookies)
    : M pystr :=
  response ← send (get (StoryTextUrl part_id) cookies);
  if negb (ok response) then
    if status_not_found response then mret []
    else raise (ValueError "Status Code:" (Some (status response)))
  else mret (resp_text response).

(** [fetch_cover], lines 94-104. *)
Definition fetch_cover (url : pystr) (cookies : cookies) : M (list byte) :=
  response ← send (get (Url url) cookies);
  if negb (ok response) then
    if status_not_found response then mret []
    else raise (ValueError "Status Code:" (Some (status response)))
  else mret (resp_read response).

(** [set_cover], lines 152-153. *)
Definition set_cover (data : story_dict) : M unit :=
  match data with
  | EmptyDict => raise (KeyError "cover")
  | StoryDict s =>
      img ← fetch_cover (story_cover s) ∅;
      mutate (SetCover (lit "cover.jpg") img)
  end.

(** *** [add_chapters], lines 156-185: an asynchronous generator *)

(** The chapter built at lines 164-169. *)
Definition make_chapter (language : pystr) (title content : pystr) : EpubHtml :=
  {| title := title;
     file_name := slugify title false ++ lit ".xhtml";
     lang := language;
     content := lit "<h1>" ++ title ++ lit "</h1>" ++ content |}.

(** Where the generator stands between two [__anext__] calls. *)
Inductive generator :=
| GenCreated (data : story_dict) (cookies : cookies)
    (* created, body not entered *)
| GenSuspended (data : story) (cookies : cookies)
    (rest : list part_ref) (chapters : list EpubHtml)
    (* at the [yield] of line 173: parts still to visit, the local
       list [chapters] *)
| GenClosed.

Inductive gen_step :=
| Next (t : pystr) (g : generator)   (* a value and the suspended generator *)
| StopAsyncIteration.

(** Lines 175-185, after the loop. *)
Definition finish (chapters : list EpubHtml) : M unit :=
  for_each (λ chapter, mutate (AddItem (HtmlItem chapter))) chapters ;;
  mutate (SetToc chapters) ;;
  mutate (AddItem NcxItem) ;;
  mutate (AddItem NavItem) ;;
  mutate (SetSpine (SpineId "nav" :: map SpineItem chapters)).

(** The loop from its head at line 159 to the next suspension or the
    end of the body. *)
Definition resume (data : story) (cookies : cookies)
    (rest : list part_ref) (chapters : list EpubHtml) : M gen_step :=
  match rest with
  | part :: rest' =>
      content ← fetch_part_content (part_id part) true cookies;
      let title := part_title part in
      let chapter := make_chapter (story_language_name data) title content in
      let chapters := chapters ++ [chapter] in
      emit (Yielded title) ;;
      mret (Next title (GenSuspended data cookies rest' chapters))
  | [] =>
      finish chapters ;;
      mret StopAsyncIteration
  end.

(** [await gen.__anext__()] *)
Definition anext (g : generator) : M gen_step :=
  match g with
  | GenCreated data cookies =>
      match data with
      | EmptyDict => raise (KeyError "parts")
      | StoryDict s => resume s cookies (story_parts s) []
      end
  | GenSuspended data cookies rest chapters => resume data cookies rest chapters
  | GenClosed => mret StopAsyncIteration
  end.

(** A consumer that asks for at most [n] values: the titles it got, and
    the generator if it is still suspended ([None] once it is
    exhausted).  [async for title in add_chapters(...)] is the consumer
    that never stops asking. *)
Fixpoint pull (n : nat) (g : generator) : M (list pystr * option generator) :=
  match n with
  | O => mret ([], Some g)
  | S n' =>
      step ← anext g;
      match step with
      | StopAsyncIteration => mret ([], None)
      | Next t g' =>
          '(ts, g'') ← pull n' g';
          mret (t :: ts, g'')
      end
  end.

(** [add_chapters(book, data, cookies)]: creating the generator runs
    nothing. *)
Definition add_chapters (data : story_dict) (cookies : cookies) : generator :=
  GenCreated data cookies.

End Pipeline.

(** ** Vocabulary of the properties *)

(** Lower-case ASCII letters, digits and the hyphen. *)
Definition lower_alnum_or_hyphen (c : N) : bool :=
  ascii_lower c || ascii_digit c || (c =? hyphen).

(** The same with the underscore, which [\w] lets through. *)
Definition slug_char (c : N) : bool :=
  lower_alnum_or_hyphen c || (c =? underscore).

(** Neither the first nor the last code point is a hyphen or an
    underscore. *)
Definition edge_ok (o : option N) : bool :=
  match o with
  | Some c => negb ((c =? hyphen) || (c =? underscore))
  | None => true
  end.
Definition edges_clean (s : pystr) : bool := edge_ok (head s) && edge_ok (last s).

(** No white space and no two hyphens in a row: nothing left for
    [re.sub(r"[-\s]+", "-", _)] to change.  [after_hyphen] tells that the
    previous code point was a hyphen. *)
Fixpoint runs_collapsed (after_hyphen : bool) (s : pystr) : bool :=
  match s with
  | [] => true
  | c :: s' =>
      if py_isspace c then false
      else if c =? hyphen then negb after_hyphen && runs_collapsed true s'
      else runs_collapsed false s'
  end.

(** The world after more events and no change of the book. *)
Definition logged (w : world) (evs : list event) : world :=
  {| events := events w ++ evs; book := book w |}.

(** The requests among some events, in order. *)
Definition sent_requests (evs : list event) : list request :=
  omap (λ ev, match ev with Sent rq => Some rq | _ => None end) evs.

(** The mutations of the book among some events, in order. *)
Definition mutations (evs : list event) : list book_op :=
  omap (λ ev, match ev with Mutated op => Some op | _ => None end) evs.

(** The values yielded among some events, in order. *)
Definition yielded_titles (evs : list event) : list pystr :=
  omap (λ ev, match ev with Yielded t => Some t | _ => None end) evs.

(** The response makes the metadata fetch raise a [ValueError]: a status
    from 400 on other than 404 and 400, or a success with a JSON content
    type whose body does not decode. *)
Definition metadata_error (r : response) : bool :=
  ((400 <=? status r) && negb (status r =? 404) && negb (status r =? 400))%Z
  || ((status r <? 400)%Z &&
      match resp_json r with
      | JsonInvalid => true
      | JsonValue _ | JsonWrongType => false
      end).

(** The response makes [response.json()] raise [ContentTypeError]: a
    success whose content type is not JSON. *)
Definition content_type_error (r : response) : bool :=
  (status r <? 400)%Z &&
  match resp_json r with
  | JsonWrongType => true
  | JsonValue _ | JsonInvalid => false
  end.

(** The record that the metadata fetch returns on a response that makes
    it raise nothing. *)
Definition metadata_body (r : response) : story_dict :=
  if ok r
  then match resp_json r with JsonValue d => d | _ => EmptyDict end
  else EmptyDict.

(** The chapter sequence held by a suspended generator: the local list
    [chapters] of [add_chapters]. *)
Definition gen_chapters (g : generator) : list EpubHtml :=
  match g with
  | GenSuspended _ _ _ chapters => chapters
  | GenCreated _ _ | GenClosed => []
  end.

(** The consumer saw the generator finish. *)
Definition exhausted {G} (r : result (list pystr * option G)) : bool :=
  match r with
  | Ok (_, None) => true
  | _ => false
  end.

(** The events of the loop of [add_chapters] over some parts when every
    fetch succeeds: a request and a yield per part. *)
Definition loop_events (c : cookies) (parts : list part_ref) : list event :=
  flat_map (λ p, [Sent (get (StoryTextUrl (part_id p)) c); Yielded (part_title p)])
    parts.

(** The events after the loop. *)
Definition finish_events (chs : list EpubHtml) : list event :=
  map (λ ch, Mutated (AddItem (HtmlItem ch))) chs
  ++ [Mutated (SetToc chs); Mutated (AddItem NcxItem); Mutated (AddItem NavItem);
      Mutated (SetSpine (SpineId "nav" :: map SpineItem chs))].

(** The chapter or cover fetch fails on this response. *)
Definition fetch_failed (r : response) : bool :=
  negb (ok r) && negb (status_not_found r).

(** The chapter text taken from a response that is not a failure. *)
Definition part_text (r : response) : pystr :=
  if ok r then resp_text r else [].

(** The chapters built from some parts and their texts. *)
Definition chapters_of `{UnicodeData} (s : story)
    (parts : list part_ref) (texts : list pystr) : list EpubHtml :=
  zip_with (λ p t, make_chapter (story_language_name s) (part_title p) t)
    parts texts.

(** The book once lines 175-185 have run over the chapters. *)
Definition finished_book (chs : list EpubHtml) (b : EpubBook) : EpubBook :=
  {| items := items b ++ map HtmlItem chs ++ [NcxItem; NavItem];
     toc := chs;
     spine := SpineId "nav" :: map SpineItem chs;
     metadata := metadata b |}.

(** ** Concrete scenarios *)

Definition empty_book : EpubBook :=
  {| items := []; toc := []; spine := []; metadata := [] |}.

Definition fresh : world := {| events := []; book := empty_book |}.

Definition demo_story : story :=
  {| story_parts := [ {| part_id := 11; part_title := lit "Chapter One" |};
                      {| part_id := 12; part_title := lit "The End!" |} ];
     story_language_name := lit "English";
     story_cover := lit "https://img.wattpad.com/cover/7.jpg" |}.

Definition demo_credentials : cookies := {[ "token" := "s3cr3t" ]}.

Definition reply (code : Z) : response :=
  {| status := code; resp_cookies := ∅; resp_text := lit "<p>text</p>";
     resp_json := JsonValue (StoryDict demo_story); resp_read := [] |}.

(** Every request succeeds. *)
Definition net_ok : Network := λ _ _, reply 200.

(** Every request meets a server error. *)
Definition net_500 : Network := λ _ _, reply 500.

(** Every request meets [404]. *)
Definition net_404 : Network := λ _ _, reply 404.

(** The text of part 12 meets a server error, everything else succeeds. *)
Definition net_part12_500 : Network := λ _ rq,
  match rq_target rq with
  | StoryTextUrl 12 => reply 500
  | _ => reply 200
  end.

(** Every request is answered 200 with an HTML page. *)
Definition net_html : Network := λ _ _,
  {| status := 200; resp_cookies := ∅; resp_text := lit "<html></html>";
     resp_json := JsonWrongType; resp_read := [] |}.

(** The login endpoint answers [204] with a session cookie. *)
Definition net_login : Network := λ _ _,
  {| status := 204; resp_cookies := demo_credentials; resp_text := [];
     resp_json := JsonInvalid; resp_read := [] |}.

(** The generator of the demo story suspended at its first yield. *)
Definition demo_suspended : generator :=
  GenSuspended demo_story demo_credentials
    [ {| part_id := 12; part_title := lit "The End!" |} ]
    [ @make_chapter hangul_ucd (lit "English") (lit "Chapter One")
        (lit "<p>text</p>") ].

(** The consumer keeps asking, every request succeeds. *)
Definition demo_run : result (list pystr * option generator) * world :=
  @pull hangul_ucd net_ok 3 (add_chapters (StoryDict demo_story) demo_credentials)
    fresh.

(** The consumer keeps asking, the second chapter fetch fails. *)
Definition failed_run : result (list pystr * option generator) * world :=
  @pull hangul_ucd net_part12_500 3
    (add_chapters (StoryDict demo_story) demo_credentials) fresh.

(** A well-formed slug: slug characters only, no white space, no two
    hyphens in a row, no hyphen or underscore at either end. *)
Definition slug_shaped (y : pystr) : bool :=
  forallb slug_char y && runs_collapsed false y && edges_clean y.

(** * Properties *)

(** ** [slugify] *)

Section SlugifyFacts.
Context {U : UnicodeData}.

Ltac chars :=
  unfold slug_char, lower_alnum_or_hyphen, keep_char, sep_char, strip_char,
    re_space, py_isspace, ascii_alnum, ascii_tolower, ascii_upper,
    ascii_lower, ascii_digit, is_ascii, hyphen, underscore in *.

Lemma filter_all {A} (P : A → Prop) `{!∀ x, Decision (P x)} (l : list A) :
  Forall P l → filter P l = l.
Proof.
  induction 1 as [|x l Hx _ IH]; [done|].
  by rewrite filter_cons_True, IH.
Qed.

(** Encoding with [ignore] and decoding again keeps exactly the ASCII
    code points; the decoding never fails. *)
Lemma decode_encode_ascii (s : pystr) :
  decode_ascii (encode_ascii_ignore s) = Some (filter (λ c, is_ascii c = true) s).
Proof.
  unfold decode_ascii, encode_ascii_ignore.
  induction s as [|c s IH]; [done|].
  cbn [omap list_omap]. destruct (is_ascii c) eqn:Hc.
  - destruct (Byte.of_N c) as [b|] eqn:Hb.
    + apply Byte.to_of_N in Hb.
      rewrite filter_cons_True by done.
      set (kept := filter _ s) in *.
      cbn. cbn in IH. rewrite Hb, Hc. cbn. by rewrite IH.
    + apply Byte.of_N_None_iff in Hb. chars. lia.
  - rewrite filter_cons_False by (by rewrite Hc). apply IH.
Qed.

Lemma slugify_default (v : pystr) :
  slugify v false =
  strip (re_sub_runs (re_sub_strip_class
    (map ascii_tolower (filter (λ c, is_ascii c = true) (nfkd v))))).
Proof.
  unfold slugify. rewrite decode_encode_ascii. unfold py_lower.
  assert (forallb is_ascii (filter (λ c, is_ascii c = true) (nfkd v)) = true) as ->; [|done].
  apply forallb_forall. intros c Hc. apply list_elem_of_In in Hc.
  by apply list_elem_of_filter in Hc as [? _].
Qed.

Lemma tolower_ascii (c : N) :
  is_ascii c = true →
  is_ascii (ascii_tolower c) = true ∧ ascii_upper (ascii_tolower c) = false.
Proof.
  unfold ascii_tolower. destruct (ascii_upper c) eqn:E; chars; lia.
Qed.

(** After the first substitution: slug characters and white space. *)
Lemma strip_class_chars (s : pystr) :
  Forall (λ c, is_ascii c = true) s →
  Forall (λ c, slug_char c || py_isspace c = true)
    (re_sub_strip_class (map ascii_tolower s)).
Proof.
  intros Hs. apply Forall_forall. intros c Hc.
  apply list_elem_of_filter in Hc as [Hk Hc].
  apply list_elem_of_fmap in Hc as (c0 & -> & Hc0).
  rewrite Forall_forall in Hs. specialize (Hs _ Hc0).
  destruct (tolower_ascii c0 Hs) as [Ha Hu].
  revert Hk Ha Hu. generalize (ascii_tolower c0). intros c Hk Ha Hu.
  unfold keep_char, re_word in Hk. rewrite Ha in Hk. chars. lia.
Qed.

Lemma collapse_runs_chars (b : bool) (s : pystr) :
  Forall (λ c, slug_char c || py_isspace c = true) s →
  Forall (λ c, slug_char c = true) (collapse_runs b s).
Proof.
  intros Hs. revert b. induction Hs as [|c s Hc _ IH]; intros b; [constructor|].
  cbn. destruct (sep_char c) eqn:Hsep.
  - destruct b; [apply IH|]. constructor; [done | apply IH].
  - constructor; [|apply IH]. chars. lia.
Qed.

Lemma collapse_runs_collapsed (b : bool) (s : pystr) :
  runs_collapsed b (collapse_runs b s) = true.
Proof.
  revert b. induction s as [|c s IH]; intros b; [done|].
  cbn. destruct (sep_char c) eqn:Hsep.
  - destruct b; [apply IH|]. cbn. apply IH.
  - cbn. assert (py_isspace c = false) as -> by (chars; lia).
    assert ((c =? hyphen) = false) as -> by (chars; lia). apply IH.
Qed.

Lemma collapse_runs_fix (b : bool) (s : pystr) :
  runs_collapsed b s = true → collapse_runs b s = s.
Proof.
  revert b. induction s as [|c s IH]; intros b H; [done|].
  cbn in *. destruct (py_isspace c) eqn:Hsp; [done|].
  destruct (c =? hyphen) eqn:Hh.
  - assert (sep_char c = true) as -> by (chars; lia).
    destruct b; [done|]. cbn in H. rewrite (IH true H).
    f_equal. chars. lia.
  - assert (sep_char c = false) as -> by (chars; lia).
    by rewrite (IH false H).
Qed.

Lemma runs_collapsed_tail (b : bool) (c : N) (s : pystr) :
  runs_collapsed b (c :: s) = true → runs_collapsed false s = true.
Proof.
  cbn. destruct (py_isspace c); [done|].
  destruct (c =? hyphen); [|done].
  intros [_ H]%andb_prop. destruct s as [|d s]; [done|].
  cbn in *. destruct (py_isspace d); [done|]. by destruct (d =? hyphen).
Qed.

Lemma runs_collapsed_prefix (b : bool) (s k : pystr) :
  runs_collapsed b (s ++ k) = true → runs_collapsed b s = true.
Proof.
  revert b. induction s as [|c s IH]; intros b; [done|].
  cbn. destruct (py_isspace c); [done|].
  destruct (c =? hyphen).
  - intros [-> H]%andb_prop. by rewrite (IH _ H).
  - apply IH.
Qed.

Lemma lstrip_suffix (s : pystr) : ∃ k, s = k ++ lstrip s.
Proof.
  induction s as [|c s [k IH]]; [by exists []|].
  cbn. destruct (strip_char c).
  - exists (c :: k). cbn. by f_equal.
  - by exists [].
Qed.

Lemma rstrip_prefix (s : pystr) : ∃ k, s = rstrip s ++ k.
Proof.
  unfold rstrip. destruct (lstrip_suffix (reverse s)) as [k Hk].
  exists (reverse k). rewrite <- reverse_app, <- Hk.
  by rewrite reverse_involutive.
Qed.

Lemma lstrip_head (s : pystr) : edge_ok (head (lstrip s)) = true.
Proof.
  induction s as [|c s IH]; [done|].
  cbn. destruct (strip_char c) eqn:Hc; [done|]. cbn. chars. lia.
Qed.

Lemma lstrip_fix (s : pystr) : edge_ok (head s) = true → lstrip s = s.
Proof.
  destruct s as [|c s]; [done|]. cbn. intros H.
  assert (strip_char c = false) as -> by (chars; lia). done.
Qed.

Lemma rstrip_last (s : pystr) : edge_ok (last (rstrip s)) = true.
Proof. unfold rstrip. rewrite last_reverse. apply lstrip_head. Qed.

Lemma rstrip_fix (s : pystr) : edge_ok (last s) = true → rstrip s = s.
Proof.
  intros H. unfold rstrip. rewrite lstrip_fix, reverse_involutive; [done|].
  by rewrite head_reverse.
Qed.

Lemma strip_edges (s : pystr) : edges_clean (strip s) = true.
Proof.
  unfold edges_clean, strip. rewrite rstrip_last, andb_true_r.
  pose proof (lstrip_head s) as Hh.
  destruct (rstrip_prefix (lstrip s)) as [k Hk].
  destruct (rstrip (lstrip s)) as [|c t]; [done|].
  rewrite Hk in Hh. done.
Qed.

Lemma strip_fix (s : pystr) : edges_clean s = true → strip s = s.
Proof.
  unfold edges_clean, strip. intros [H1 H2]%andb_prop.
  by rewrite (lstrip_fix _ H1), (rstrip_fix _ H2).
Qed.

Lemma strip_parts (s : pystr) : ∃ k1 k2, s = k1 ++ strip s ++ k2.
Proof.
  destruct (lstrip_suffix s) as [k1 H1].
  destruct (rstrip_prefix (lstrip s)) as [k2 H2].
  exists k1, k2. unfold strip. by rewrite <- H2.
Qed.

Lemma strip_chars (P : N → Prop) (s : pystr) : Forall P s → Forall P (strip s).
Proof.
  destruct (strip_parts s) as (k1 & k2 & H). intros Hs. rewrite H in Hs.
  by apply Forall_app in Hs as [_ [? _]%Forall_app].
Qed.

Lemma strip_collapsed (s : pystr) :
  runs_collapsed false s = true → runs_collapsed false (strip s) = true.
Proof.
  destruct (strip_parts s) as (k1 & k2 & H). intros Hs. rewrite H in Hs.
  clear H. induction k1 as [|c k1 IH].
  - by apply (runs_collapsed_prefix _ _ k2).
  - apply IH. by apply (runs_collapsed_tail false c).
Qed.

(** The shape of every slug of the default mode. *)
Lemma slugify_shape (v : pystr) :
  Forall (λ c, slug_char c = true) (slugify v false)
  ∧ runs_collapsed false (slugify v false) = true
  ∧ edges_clean (slugify v false) = true.
Proof.
  rewrite slugify_default. split_and!.
  - apply strip_chars, collapse_runs_chars, strip_class_chars.
    apply Forall_forall. intros c Hc. by apply list_elem_of_filter in Hc as [? _].
  - apply strip_collapsed, collapse_runs_collapsed.
  - apply strip_edges.
Qed.

(** A string of that shape which [NFKD] leaves alone is its own slug. *)
Lemma slugify_fix (y : pystr) :
  nfkd y = y →
  Forall (λ c, slug_char c = true) y →
  runs_collapsed false y = true →
  edges_clean y = true →
  slugify y false = y.
Proof.
  intros Hn Hc Hr He. rewrite slugify_default, Hn.
  rewrite (filter_all _ y) by (eapply Forall_impl; [exact Hc|]; intros c ?; chars; lia).
  assert (map ascii_tolower y = y) as ->.
  { clear Hn Hr He. induction Hc as [|c y Hc _ IH]; [done|].
    cbn. rewrite IH. f_equal. chars.
    destruct ((65 <=? c) && (c <=? 90)) eqn:Hu; [lia | done]. }
  unfold re_sub_strip_class. rewrite filter_all.
  - unfold re_sub_runs. rewrite (collapse_runs_fix _ _ Hr). by apply strip_fix.
  - eapply Forall_impl; [exact Hc|]. intros c Hs.
    unfold keep_char, re_word.
    assert (is_ascii c = true) as -> by (chars; lia). chars. lia.
Qed.

End SlugifyFacts.

(** The Hangul fragment leaves ASCII strings alone, as [NFKD] does. *)
Lemma hangul_nfkd_ascii (s : pystr) :
  forallb is_ascii s = true → @nfkd hangul_ucd s = s.
Proof.
  cbn. induction s as [|c s IH]; [done|].
  cbn. intros [Hc Hs]%andb_prop. rewrite (IH Hs).
  unfold Hangul.decompose.
  assert (Hangul.is_syllable c = false) as ->; [|done].
  unfold Hangul.is_syllable, Hangul.SBase, Hangul.SCount, is_ascii in *. lia.
Qed.

(** C2 (amended): in the default mode every code point of [slugify(x)] is
    a lower-case ASCII letter, a digit, a hyphen or an underscore, and the
    slug neither starts nor ends with a hyphen or an underscore. *)
Theorem slugify_default_charset `{UnicodeData} (x : pystr) :
  forallb slug_char (slugify x false) = true
  ∧ edges_clean (slugify x false) = true.
Proof.
  destruct (slugify_shape x) as (Hc & _ & He). split; [|done].
  apply forallb_forall. intros c Hin. apply list_elem_of_In in Hin.
  rewrite Forall_forall in Hc. by apply Hc.
Qed.

(** C2 as stated fails: an underscore inside the title is a word
    character for [\w] and stays in the slug, so [slugify("a_b")] is
    ["a_b"], which is not made of lower-case alphanumerics and hyphens
    only. *)
Lemma slugify_keeps_underscore :
  @slugify hangul_ucd (lit "a_b") false = lit "a_b"
  ∧ forallb lower_alnum_or_hyphen (@slugify hangul_ucd (lit "a_b") false) = false.
Proof. by vm_compute. Qed.

(** C9 (amended): in the default mode [slugify] is idempotent,
    [slugify(slugify(x)) == slugify(x)] for every [x], given that [NFKD]
    leaves ASCII strings unchanged; and in both modes equal inputs give
    equal outputs. *)
Theorem slugify_default_idempotent `{UnicodeData} :
  (∀ s, forallb is_ascii s = true → nfkd s = s) →
  (∀ x, slugify (slugify x false) false = slugify x false)
  ∧ (∀ mode x y, x = y → slugify x mode = slugify y mode).
Proof.
  intros Hnfkd. split; [|by intros mode x y ->].
  intros x. destruct (slugify_shape x) as (Hc & Hr & He).
  apply slugify_fix; [|done..].
  apply Hnfkd, forallb_forall. intros c Hin. apply list_elem_of_In in Hin.
  rewrite Forall_forall in Hc. specialize (Hc _ Hin).
  unfold slug_char, lower_alnum_or_hyphen, ascii_lower, ascii_digit, is_ascii,
    hyphen, underscore in *. lia.
Qed.

(** On the Hangul fragment: a title with capitals, punctuation, runs of
    blanks and hyphens, and a trailing underscore. *)
Lemma slugify_default_idempotent_witness :
  (∀ s, forallb is_ascii s = true → @nfkd hangul_ucd s = s)
  ∧ @slugify hangul_ucd (@slugify hangul_ucd (lit "Hello,  World -- a_b_ ") false) false
    = lit "hello-world-a_b".
Proof.
  split; [exact hangul_nfkd_ascii|].
  destruct (@slugify_default_idempotent hangul_ucd hangul_nfkd_ascii) as [Hidem _].
  rewrite Hidem. by vm_compute.
Defined.

(** C9 as stated fails in the Unicode mode: in U+1100 "." U+1161 the
    full stop keeps the two conjoining jamo apart, so [NFKC] leaves the
    string alone and the slug is U+1100 U+1161; slugifying that slug,
    [NFKC] composes the two jamo into the syllable U+AC00. *)
Lemma slugify_unicode_not_idempotent :
  @slugify hangul_ucd [0x1100; 0x2E; 0x1161] true = [0x1100; 0x1161]
  ∧ @slugify hangul_ucd (@slugify hangul_ucd [0x1100; 0x2E; 0x1161] true) true
    = [0xAC00]
  ∧ @slugify hangul_ucd (@slugify hangul_ucd [0x1100; 0x2E; 0x1161] true) true
    ≠ @slugify hangul_ucd [0x1100; 0x2E; 0x1161] true.
Proof. by vm_compute. Qed.

(** ** The fetchers and the generator *)

Section PipelineFacts.
Context {U : UnicodeData} {Net : Network}.

Ltac run := unfold mbind, M_bind, mret, M_ret, raise, emit, mutate, send, logged.

Ltac case_run :=
  match goal with
  | |- context [match ?x with pair _ _ => _ end] => destruct x as [[?|?] ?]
  end.

Lemma bind_run {A B} (m : M A) (f : A → M B) (w : world) :
  (m ≫= f) w
  = match m w with
    | (Ok a, w') => f a w'
    | (Raise e, w') => (Raise e, w')
    end.
Proof. reflexivity. Qed.

(** A call with [retry=False] never reaches the recursive call. *)
Lemma retrieve_story_body_last (f g : Z → bool → cookies → M story_dict)
    (story_id : Z) (c : cookies) (w : world) :
  retrieve_story_body f story_id false c w
  = retrieve_story_body g story_id false c w.
Proof.
  unfold retrieve_story_body, try_except_ValueError. reflexivity.
Qed.

(** Two unfoldings of the body are a fixed point of it: [retrieve_story]
    satisfies the recursive equation of the source. *)
Lemma retrieve_story_unfold (story_id : Z) (retry : bool) (c : cookies) (w : world) :
  retrieve_story story_id retry c w
  = retrieve_story_body retrieve_story story_id retry c w.
Proof.
  destruct retry; [|apply retrieve_story_body_last].
  unfold retrieve_story at 1.
  unfold retrieve_story_body at 1 3, try_except_ValueError.
  case_run; [done|].
  destruct (is_ValueError _); [|done].
  cbn. run. apply retrieve_story_body_last.
Qed.

Lemma fetch_part_content_run (id : Z) (retry : bool) (c : cookies) (w : world) :
  fetch_part_content id retry c w
  = (let r := transport (events w) (get (StoryTextUrl id) c) in
     if fetch_failed r then Raise (ValueError "Status Code:" (Some (status r)))
     else Ok (part_text r),
     logged w [Sent (get (StoryTextUrl id) c)]).
Proof.
  unfold fetch_part_content, fetch_failed, part_text. run. cbn.
  destruct (ok _); cbn; [done|]. by destruct (status_not_found _).
Qed.

Lemma for_each_add_items (chs : list EpubHtml) (w : world) :
  for_each (λ ch, mutate (AddItem (HtmlItem ch))) chs w
  = (Ok (),
     {| events := events w ++ map (λ ch, Mutated (AddItem (HtmlItem ch))) chs;
        book := {| items := items (book w) ++ map HtmlItem chs;
                   toc := toc (book w); spine := spine (book w);
                   metadata := metadata (book w) |} |}).
Proof.
  revert w. induction chs as [|ch chs IH]; intros [evs [its t sp md]].
  - cbn. run. by rewrite !app_nil_r.
  - cbn [for_each]. run. cbn. rewrite IH. cbn.
    by rewrite <- !app_assoc.
Qed.

Lemma finish_run (chs : list EpubHtml) (w : world) :
  finish chs w
  = (Ok (), {| events := events w ++ finish_events chs;
               book := finished_book chs (book w) |}).
Proof.
  unfold finish. rewrite bind_run, for_each_add_items. run. cbn.
  unfold finish_events, finished_book. cbn.
  by rewrite <- !app_assoc.
Qed.

Lemma pull_end (n : nat) (s : story) (c : cookies) (chs : list EpubHtml) (w : world) :
  pull (S n) (GenSuspended s c [] chs) w
  = (Ok ([], None), {| events := events w ++ finish_events chs;
                       book := finished_book chs (book w) |}).
Proof.
  cbn [pull anext resume]. by rewrite !bind_run, finish_run.
Qed.

Lemma pull_part (n : nat) (s : story) (c : cookies) (p : part_ref)
    (rest : list part_ref) (chs : list EpubHtml) (w : world) :
  pull (S n) (GenSuspended s c (p :: rest) chs) w
  = let rq := get (StoryTextUrl (part_id p)) c in
    let r := transport (events w) rq in
    if fetch_failed r
    then (Raise (ValueError "Status Code:" (Some (status r))), logged w [Sent rq])
    else
      match pull n (GenSuspended s c rest
               (chs ++ [make_chapter (story_language_name s) (part_title p)
                          (part_text r)]))
              (logged w [Sent rq; Yielded (part_title p)]) with
      | (Ok (ts, g), w') => (Ok (part_title p :: ts, g), w')
      | (Raise e, w') => (Raise e, w')
      end.
Proof.
  cbn [pull anext resume]. rewrite !bind_run, fetch_part_content_run.
  cbn zeta. destruct (fetch_failed _); [done|].
  rewrite bind_run. unfold emit at 1, mret at 1, M_ret at 1.
  rewrite bind_run. unfold logged. cbn. rewrite <- app_assoc. cbn.
  destruct (pull n _ _) as [[[ts g]|e] w']; done.
Qed.

Lemma pull_created (n : nat) (s : story) (c : cookies) (w : world) :
  pull (S n) (add_chapters (StoryDict s) c) w
  = pull (S n) (GenSuspended s c (story_parts s) []) w.
Proof. reflexivity. Qed.

Lemma loop_events_app (c : cookies) (ps qs : list part_ref) :
  loop_events c (ps ++ qs) = loop_events c ps ++ loop_events c qs.
Proof. unfold loop_events. apply flat_map_app. Qed.

Lemma loop_events_yielded (c : cookies) (ps : list part_ref) :
  yielded_titles (loop_events c ps) = map part_title ps.
Proof. induction ps as [|p ps IH]; [done|]. cbn. by rewrite <- IH. Qed.

Lemma loop_events_mutations (c : cookies) (ps : list part_ref) :
  mutations (loop_events c ps) = [].
Proof. induction ps as [|p ps IH]; [done|]. cbn. apply IH. Qed.

Lemma finish_events_yielded (chs : list EpubHtml) :
  yielded_titles (finish_events chs) = [].
Proof.
  unfold finish_events, yielded_titles. rewrite omap_app. cbn.
  rewrite app_nil_r. by induction chs.
Qed.

(** A run that the consumer sees finish: every part was fetched and
    yielded in turn, then the chapters were attached. *)
Lemma pull_exhausted (n : nat) (s : story) (c : cookies)
    (rest : list part_ref) (chs : list EpubHtml) (w : world)
    (ts : list pystr) (w' : world) :
  pull n (GenSuspended s c rest chs) w = (Ok (ts, None), w') →
  ∃ texts : list pystr,
    length texts = length rest
    ∧ ts = map part_title rest
    ∧ events w' = events w ++ loop_events c rest
                    ++ finish_events (chs ++ chapters_of s rest texts)
    ∧ book w' = finished_book (chs ++ chapters_of s rest texts) (book w).
Proof.
  revert rest chs w ts. induction n as [|n IH]; intros rest chs w ts Hrun.
  { discriminate Hrun. }
  destruct rest as [|p rest].
  - rewrite pull_end in Hrun. injection Hrun as <- <-.
    exists []. cbn. by rewrite app_nil_r.
  - rewrite pull_part in Hrun. cbn zeta in Hrun.
    destruct (fetch_failed _); [discriminate Hrun|].
    destruct (pull n _ _) as [[[ts' g]|e] w''] eqn:Hrest; [|discriminate Hrun].
    injection Hrun as <- -> <-.
    apply IH in Hrest as (texts & Hlen & -> & Hev & Hbook).
    eexists (_ :: texts). cbn. split_and!; [by rewrite Hlen | done | |].
    + rewrite Hev. cbn. by rewrite <- !app_assoc.
    + rewrite Hbook. cbn. by rewrite <- !app_assoc.
Qed.

(** When no chapter fetch fails, the consumer that keeps asking sees
    the generator finish after one more call than there are parts. *)
Lemma pull_completes (n : nat) (s : story) (c : cookies)
    (rest : list part_ref) (chs : list EpubHtml) (w : world) :
  (length rest < n)%nat →
  (∀ h p, p ∈ rest →
     fetch_failed (transport h (get (StoryTextUrl (part_id p)) c)) = false) →
  ∃ w', pull n (GenSuspended s c rest chs) w = (Ok (map part_title rest, None), w').
Proof.
  revert n chs w. induction rest as [|p rest IH]; intros n chs w Hn Hnet.
  - destruct n as [|n]; [lia|]. rewrite pull_end. by eexists.
  - destruct n as [|n]; [cbn in Hn; lia|]. rewrite pull_part. cbn zeta.
    rewrite Hnet by set_solver.
    edestruct (IH n) as [w' ->]; [cbn in Hn; lia | intros; apply Hnet; set_solver |].
    by eexists.
Qed.

(** Until the consumer has seen the generator finish, the book is the
    one the generator was given. *)
Lemma pull_book_untouched (n : nat) (g : generator) (w : world)
    (res : result (list pystr * option generator)) (w' : world) :
  pull n g w = (res, w') →
  exhausted res = false →
  book w' = book w ∧ ∃ evs, events w' = events w ++ evs ∧ mutations evs = [].
Proof.
  revert g w res. induction n as [|n IH]; intros g w res Hrun Hres.
  { injection Hrun as <- <-. split; [done|]. exists []. by rewrite app_nil_r. }
  assert (∀ s c rest chs, pull (S n) (GenSuspended s c rest chs) w = (res, w') →
    book w' = book w ∧ ∃ evs, events w' = events w ++ evs ∧ mutations evs = [])
    as Hsusp.
  { intros s c [|p rest] chs Hs.
    - rewrite pull_end in Hs. injection Hs as <- <-. done.
    - rewrite pull_part in Hs. cbn zeta in Hs.
      destruct (fetch_failed _).
      + injection Hs as <- <-. split; [done|]. by eexists [_].
      + destruct (pull n _ _) as [[[ts' g']|e] w''] eqn:Hrest;
          injection Hs as <- <-.
        * apply IH in Hrest as (Hb & evs & Hev & Hm); [|done].
          split; [done|]. eexists (_ :: _ :: evs).
          rewrite Hev. cbn. by rewrite <- app_assoc.
        * apply IH in Hrest as (Hb & evs & Hev & Hm); [|done].
          split; [done|]. eexists (_ :: _ :: evs).
          rewrite Hev. cbn. by rewrite <- app_assoc. }
  destruct g as [[|s] c|s c rest chs|].
  - injection Hrun as <- <-. split; [done|]. exists []. by rewrite app_nil_r.
  - eapply Hsusp. by rewrite <- pull_created.
  - by eapply Hsusp.
  - injection Hrun as <- <-. done.
Qed.

(** One call of the body of [retrieve_story]. *)
Lemma retrieve_story_body_run (self : Z → bool → cookies → M story_dict)
    (story_id : Z) (retry : bool) (c : cookies) (w : world) :
  retrieve_story_body self story_id retry c w
  = let rq := get (StoryUrl story_id) c in
    let r := transport (events w) rq in
    if metadata_error r then
      if retry then self story_id false ∅ (logged w [Sent rq; Slept 15])
      else (Raise TimeoutError, logged w [Sent rq])
    else if content_type_error r then (Raise ContentTypeError, logged w [Sent rq])
    else (Ok (metadata_body r), logged w [Sent rq]).
Proof.
  unfold retrieve_story_body, try_except_ValueError. rewrite bind_run.
  unfold send at 1. cbn zeta.
  set (r := transport (events w) (get (StoryUrl story_id) c)).
  assert (metadata_error r
          = negb (ok r) && negb (status_not_found r)
            || ok r && match resp_json r with JsonInvalid => true | _ => false end)
    as ->.
  { unfold metadata_error, ok, status_not_found.
    destruct (resp_json r); lia. }
  unfold content_type_error, metadata_body. fold (ok r).
  destruct (ok r); cbn.
  - destruct (resp_json r); cbn; [done| |done].
    destruct retry; cbn; [|done].
    rewrite bind_run. unfold emit, logged. cbn. by rewrite <- app_assoc.
  - destruct (status_not_found r); cbn; [done|].
    destruct retry; cbn; [|done].
    rewrite bind_run. unfold emit, logged. cbn. by rewrite <- app_assoc.
Qed.

(** C5 (amended): the metadata fetch answers a 404 or a 400 with the empty
    record, after one request and without raising, whatever [retry] is.
    On a response that makes it raise a [ValueError], a status from 400
    on other than 404 and 400 or a JSON body that does not decode, it
    sleeps 15 and makes exactly one more request; then it raises
    [TimeoutError] if that response is of this kind too, returns the
    empty record on a 404 or 400 and the decoded body on a success, and
    lets the [ContentTypeError] of a success that is not JSON through.  A
    call with [retry=False] raises [TimeoutError] on a response of this
    kind without a further request.  A success whose content type is not
    JSON is no such response: its [ContentTypeError] leaves the function
    after the one request, without sleep and without retry. *)
Theorem retrieve_story_policy (story_id : Z) (c : cookies) (w : world) :
  let rq := get (StoryUrl story_id) c in
  let r := transport (events w) rq in
  let rq' := get (StoryUrl story_id) ∅ in
  let r' := transport (events w ++ [Sent rq; Slept 15]) rq' in
  (∀ retry, (status r = 404 ∨ status r = 400)%Z →
     retrieve_story story_id retry c w = (Ok EmptyDict, logged w [Sent rq]))
  ∧ (metadata_error r = true →
     ∃ res,
       retrieve_story story_id true c w
       = (res, logged w [Sent rq; Slept 15; Sent rq'])
       ∧ (metadata_error r' = true → res = Raise TimeoutError)
       ∧ ((status r' = 404 ∨ status r' = 400)%Z → res = Ok EmptyDict)
       ∧ (∀ d, (status r' < 400)%Z → resp_json r' = JsonValue d → res = Ok d)
       ∧ ((status r' < 400)%Z → resp_json r' = JsonWrongType →
          res = Raise ContentTypeError))
  ∧ (metadata_error r = true →
     retrieve_story story_id false c w = (Raise TimeoutError, logged w [Sent rq]))
  ∧ (∀ retry, (status r < 400)%Z → resp_json r = JsonWrongType →
       retrieve_story story_id retry c w
       = (Raise ContentTypeError, logged w [Sent rq]))
  ∧ (metadata_error r = true
     ↔ ((400 ≤ status r)%Z ∧ status r ≠ 404%Z ∧ status r ≠ 400%Z)
       ∨ ((status r < 400)%Z ∧ resp_json r = JsonInvalid)).
Proof.
  intros rq r rq' r'. split_and!.
  - intros retry Hst. rewrite retrieve_story_unfold, retrieve_story_body_run.
    cbn zeta. fold rq r.
    assert (metadata_error r = false) as ->
      by (unfold metadata_error; destruct (resp_json r); lia).
    assert (content_type_error r = false) as ->
      by (unfold content_type_error; destruct (resp_json r); lia).
    unfold metadata_body.
    assert (ok r = false) as -> by (unfold ok; lia). done.
  - intros Herr. rewrite retrieve_story_unfold, retrieve_story_body_run.
    cbn zeta. fold rq r. rewrite Herr.
    rewrite retrieve_story_unfold, retrieve_story_body_run. cbn zeta.
    unfold logged. cbn [events book]. rewrite <- !app_assoc. cbn [app].
    fold rq' r'.
    destruct (metadata_error r') eqn:Herr'.
    + eexists. split; [done|]. split_and!; [done| | |].
      * intros Hst. unfold metadata_error in Herr'. destruct (resp_json r'); lia.
      * intros d Hst Hd. unfold metadata_error in Herr'. rewrite Hd in Herr'. lia.
      * intros Hst Hd. unfold metadata_error in Herr'. rewrite Hd in Herr'. lia.
    + destruct (content_type_error r') eqn:Hct.
      * eexists. split; [done|]. split_and!; [done| | |done].
        -- intros Hst. unfold content_type_error in Hct. lia.
        -- intros d Hst Hd. unfold content_type_error in Hct.
           rewrite Hd in Hct. lia.
      * eexists. split; [done|]. unfold metadata_body. split_and!; [done| | |].
        -- intros Hst. assert (ok r' = false) as -> by (unfold ok; lia). done.
        -- intros d Hst Hd. assert (ok r' = true) as -> by (unfold ok; lia).
           by rewrite Hd.
        -- intros Hst Hd. unfold content_type_error in Hct. rewrite Hd in Hct. lia.
  - intros Herr. rewrite retrieve_story_unfold, retrieve_story_body_run.
    cbn zeta. fold rq r. by rewrite Herr.
  - intros retry Hst Hd. rewrite retrieve_story_unfold, retrieve_story_body_run.
    cbn zeta. fold rq r.
    assert (metadata_error r = false) as ->
      by (unfold metadata_error; rewrite Hd; lia).
    assert (content_type_error r = true) as ->
      by (unfold content_type_error; rewrite Hd; lia).
    done.
  - unfold metadata_error. split.
    + intros H. destruct (resp_json r) eqn:Hd; [left; lia | | left; lia].
      destruct (Z.ltb_spec (status r) 400); [by right | left; lia].
    + intros [H|[H Hd]]; [destruct (resp_json r); lia | rewrite Hd; lia].
Qed.

Lemma fetch_cover_run (url : pystr) (c : cookies) (w : world) :
  fetch_cover url c w
  = (let r := transport (events w) (get (Url url) c) in
     if fetch_failed r then Raise (ValueError "Status Code:" (Some (status r)))
     else Ok (if ok r then resp_read r else []),
     logged w [Sent (get (Url url) c)]).
Proof.
  unfold fetch_cover, fetch_failed. rewrite bind_run. unfold send at 1. cbn.
  destruct (ok _); cbn; [done|]. by destruct (status_not_found _).
Qed.

(** C6: the chapter fetch and the cover fetch each make one request;
    on a 404 or a 400 they return the empty string, respectively the
    empty bytes, and on any other status from 400 on they raise a
    [ValueError] that carries the status. *)
Theorem fetch_not_found_or_fail
    (part : Z) (retry : bool) (url : pystr) (c : cookies) (w : world) :
  let rq := get (StoryTextUrl part) c in
  let r := transport (events w) rq in
  let rq' := get (Url url) c in
  let r' := transport (events w) rq' in
  ((status r = 404 ∨ status r = 400)%Z →
     fetch_part_content part retry c w = (Ok [], logged w [Sent rq]))
  ∧ ((400 ≤ status r)%Z → status r ≠ 404%Z → status r ≠ 400%Z →
     fetch_part_content part retry c w
     = (Raise (ValueError "Status Code:" (Some (status r))), logged w [Sent rq]))
  ∧ ((status r' = 404 ∨ status r' = 400)%Z →
     fetch_cover url c w = (Ok [], logged w [Sent rq']))
  ∧ ((400 ≤ status r')%Z → status r' ≠ 404%Z → status r' ≠ 400%Z →
     fetch_cover url c w
     = (Raise (ValueError "Status Code:" (Some (status r'))), logged w [Sent rq'])).
Proof.
  intros rq r rq' r'.
  rewrite fetch_part_content_run, fetch_cover_run. cbn zeta. fold rq r rq' r'.
  unfold fetch_failed, part_text, ok, status_not_found.
  split_and!; intros.
  - assert ((status r <? 400)%Z = false) as -> by lia.
    assert (((status r =? 404) || (status r =? 400))%Z = true) as -> by lia. done.
  - assert ((status r <? 400)%Z = false) as -> by lia.
    assert (((status r =? 404) || (status r =? 400))%Z = false) as -> by lia. done.
  - assert ((status r' <? 400)%Z = false) as -> by lia.
    assert (((status r' =? 404) || (status r' =? 400))%Z = true) as -> by lia. done.
  - assert ((status r' <? 400)%Z = false) as -> by lia.
    assert (((status r' =? 404) || (status r' =? 400))%Z = false) as -> by lia. done.
Qed.

(** C8: the login makes exactly one request; it raises exactly when the
    status is not 204, or is 204 with an empty cookie jar; what it
    raises is the [ValueError] the source uses for a failed login; and
    what it returns is the non-empty cookie jar of the response. *)
Theorem wp_get_cookies_outcome (username password : pystr) (w : world) :
  let rq := login_request username password in
  let r := transport (events w) rq in
  ∃ res w' evs,
    wp_get_cookies username password w = (res, w')
    ∧ events w' = events w ++ evs
    ∧ sent_requests evs = [rq]
    ∧ ((∃ e, res = Raise e)
       ↔ (status r ≠ 204%Z ∨ (status r = 204%Z ∧ resp_cookies r = ∅)))
    ∧ (∀ e, res = Raise e → ∃ msg, e = ValueError msg None)
    ∧ (∀ jar, res = Ok jar → jar = resp_cookies r ∧ jar ≠ ∅).
Proof.
  intros rq r. unfold wp_get_cookies. rewrite bind_run. unfold send at 1.
  fold rq r. destruct (status r =? 204)%Z eqn:Hst; cbn [negb].
  - rewrite bind_run. unfold emit at 1.
    destruct (decide (resp_cookies r = ∅)) as [Hjar|Hjar].
    + eexists _, _, [_; _]. split; [done|]. cbn. rewrite <- app_assoc.
      split_and!; [done..| | |].
      * split; [intros _; right; split; [lia | done] | by eexists].
      * intros e [= <-]. by eexists.
      * intros jar [=].
    + eexists _, _, [_; _]. split; [done|]. cbn. rewrite <- app_assoc.
      split_and!; [done..| | |].
      * split; [by intros [e [=]] | intros [?|[_ ?]]; [lia | done]].
      * intros e [=].
      * by intros jar [= <-].
  - eexists _, _, [_]. split; [done|]. cbn.
    split_and!; [done..| | |].
    + split; [intros _; left; lia | by eexists].
    + intros e [= <-]. by eexists.
    + intros jar [=].
Qed.

(** C1 (amended): after a run that the consumer sees finish, the spine
    is the navigation entry ["nav"] followed by one chapter per part, in
    the order of the parts and with nothing else before the chapters;
    the table of contents is that chapter sequence; the chapters, then
    the contents index and the navigation document, are appended to the
    items of the book. *)
Theorem spine_is_nav_then_chapters (n : nat) (s : story) (c : cookies)
    (w w' : world) (ts : list pystr) :
  pull n (add_chapters (StoryDict s) c) w = (Ok (ts, None), w') →
  ∃ chs : list EpubHtml,
    Forall2 (λ p ch, title ch = part_title p
                     ∧ file_name ch = slugify (part_title p) false ++ lit ".xhtml"
                     ∧ lang ch = story_language_name s)
      (story_parts s) chs
    ∧ spine (book w') = SpineId "nav" :: map SpineItem chs
    ∧ toc (book w') = chs
    ∧ items (book w') = items (book w) ++ map HtmlItem chs ++ [NcxItem; NavItem].
Proof.
  destruct n as [|n]; [intros [=]|]. rewrite pull_created.
  intros (texts & Hlen & _ & _ & Hbook)%pull_exhausted.
  exists (chapters_of s (story_parts s) texts).
  rewrite Hbook. cbn. split; [|done].
  clear Hbook. revert texts Hlen.
  induction (story_parts s) as [|p ps IH]; intros [|t texts] Hlen;
    try discriminate Hlen; cbn; constructor; [done|].
  apply IH. by injection Hlen.
Qed.

(** C7: a run over a story with N parts that the consumer sees finish
    has handed it exactly N titles, the titles of the parts in their
    order, and these are the values yielded during the run; and when no
    chapter fetch fails, the consumer that asks more than N times does
    see the run finish. *)
Theorem progress_events_are_titles (n : nat) (s : story) (c : cookies) (w : world) :
  (∀ ts w',
     pull n (add_chapters (StoryDict s) c) w = (Ok (ts, None), w') →
     ts = map part_title (story_parts s)
     ∧ length ts = length (story_parts s)
     ∧ ∃ evs, events w' = events w ++ evs
              ∧ yielded_titles evs = map part_title (story_parts s))
  ∧ ((length (story_parts s) < n)%nat →
     (∀ h p, p ∈ story_parts s →
        fetch_failed (transport h (get (StoryTextUrl (part_id p)) c)) = false) →
     ∃ w', pull n (add_chapters (StoryDict s) c) w
           = (Ok (map part_title (story_parts s), None), w')).
Proof.
  split.
  - intros ts w'. destruct n as [|n]; [intros [=]|]. rewrite pull_created.
    intros (texts & _ & -> & Hev & _)%pull_exhausted.
    split_and!; [done | by rewrite length_map |].
    eexists. split; [exact Hev|].
    unfold yielded_titles. rewrite omap_app.
    fold (yielded_titles (loop_events c (story_parts s))).
    fold (yielded_titles (finish_events ([] ++ chapters_of s (story_parts s) texts))).
    by rewrite loop_events_yielded, finish_events_yielded, app_nil_r.
  - intros Hn Hnet. destruct n as [|n]; [lia|]. rewrite pull_created.
    by apply pull_completes.
Qed.

(** A consumer that got [n] titles and left the generator suspended:
    the generator went through the first [n] parts. *)
Lemma pull_suspended (n : nat) (s : story) (c : cookies)
    (rest : list part_ref) (chs : list EpubHtml) (w : world)
    (ts : list pystr) (g : generator) (w' : world) :
  pull n (GenSuspended s c rest chs) w = (Ok (ts, Some g), w') →
  ∃ texts : list pystr,
    length texts = n
    ∧ (n ≤ length rest)%nat
    ∧ ts = map part_title (take n rest)
    ∧ g = GenSuspended s c (drop n rest)
            (chs ++ chapters_of s (take n rest) texts)
    ∧ events w' = events w ++ loop_events c (take n rest)
    ∧ book w' = book w.
Proof.
  revert rest chs w ts. induction n as [|n IH]; intros rest chs w ts Hrun.
  { injection Hrun as <- <- <-. exists []. cbn. rewrite !app_nil_r.
    split_and!; [done | lia | done..]. }
  destruct rest as [|p rest].
  - rewrite pull_end in Hrun. discriminate Hrun.
  - rewrite pull_part in Hrun. cbn zeta in Hrun.
    destruct (fetch_failed _); [discriminate Hrun|].
    destruct (pull n _ _) as [[[ts' g']|e] w''] eqn:Hrest; [|discriminate Hrun].
    injection Hrun as <- -> <-.
    apply IH in Hrest as (texts & Hlen & Hn & -> & -> & Hev & Hbook).
    eexists (_ :: texts). cbn.
    split_and!; [by rewrite Hlen | lia | done | by rewrite <- app_assoc | | done].
    rewrite Hev. cbn. by rewrite <- app_assoc.
Qed.

(** C4 (amended): whenever the consumer holds [n] titles and the generator
    is suspended, the titles are those of the first [n] parts, the
    chapter sequence of the generator already holds the entries of
    exactly these titles, so each title is yielded after its entry is
    appended; the events of the run so far are, part by part, the
    request for the text directly followed by the yield of the title;
    and the book is still the one passed in. *)
Theorem title_yielded_after_fetch_and_append (n : nat) (s : story) (c : cookies)
    (w w' : world) (ts : list pystr) (g : generator) :
  pull n (add_chapters (StoryDict s) c) w = (Ok (ts, Some g), w') →
  ts = map part_title (take n (story_parts s))
  ∧ length ts = n
  ∧ map title (gen_chapters g) = ts
  ∧ events w' = events w ++ loop_events c (take n (story_parts s))
  ∧ book w' = book w.
Proof.
  destruct n as [|n].
  { intros [= <- <- <-]. cbn. by rewrite app_nil_r. }
  rewrite pull_created.
  intros (texts & Hlen & Hn & -> & -> & Hev & Hbook)%pull_suspended.
  split_and!; [done | | | done..].
  - rewrite length_map, length_take. lia.
  - cbn. clear Hev Hbook Hn. revert texts Hlen.
    generalize (S n). intros k. revert k.
    induction (story_parts s) as [|p ps IH]; intros [|k] [|t texts] Hlen;
      try discriminate Hlen; cbn; try done.
    f_equal. apply IH. by injection Hlen.
Qed.

(** In a run that the consumer sees finish, the title of the part at
    each position is yielded right after the request for that part's
    text, no mutation of the book comes before that yield, and the entry
    of that chapter, the one at that position of the table of contents,
    is added to the book later. *)
Lemma chapter_attached_after_its_yield (n : nat) (s : story)
    (c : cookies) (w w' : world) (ts : list pystr) (i : nat) (p : part_ref) :
  pull n (add_chapters (StoryDict s) c) w = (Ok (ts, None), w') →
  story_parts s !! i = Some p →
  ∃ ch before between after,
    toc (book w') !! i = Some ch
    ∧ title ch = part_title p
    ∧ events w'
      = events w ++ before
        ++ [Sent (get (StoryTextUrl (part_id p)) c); Yielded (part_title p)]
        ++ between ++ [Mutated (AddItem (HtmlItem ch))] ++ after
    ∧ before = loop_events c (take i (story_parts s))
    ∧ mutations before = [].
Proof.
  destruct n as [|n]; [intros [=]|]. rewrite pull_created.
  intros (texts & Hlen & _ & Hev & Hbook)%pull_exhausted Hp.
  cbn [app] in *. set (chs := chapters_of s (story_parts s) texts) in *.
  assert (∃ t, texts !! i = Some t) as [t Ht].
  { apply lookup_lt_is_Some. rewrite Hlen. by eapply lookup_lt_Some. }
  set (ch := make_chapter (story_language_name s) (part_title p) t).
  assert (chs !! i = Some ch) as Hch.
  { unfold chs, chapters_of. rewrite lookup_zip_with, Hp. cbn. by rewrite Ht. }
  exists ch, (loop_events c (take i (story_parts s))),
    (loop_events c (drop (S i) (story_parts s))
     ++ map (λ ch, Mutated (AddItem (HtmlItem ch))) (take i chs)),
    (map (λ ch, Mutated (AddItem (HtmlItem ch))) (drop (S i) chs)
     ++ [Mutated (SetToc chs); Mutated (AddItem NcxItem); Mutated (AddItem NavItem);
         Mutated (SetSpine (SpineId "nav" :: map SpineItem chs))]).
  split_and!; [by rewrite Hbook | done | | done | apply loop_events_mutations].
  rewrite Hev. f_equal.
  rewrite <- (take_drop_middle _ _ _ Hp) at 1.
  rewrite loop_events_app. cbn [loop_events flat_map].
  unfold finish_events. rewrite <- (take_drop_middle _ _ _ Hch) at 1.
  rewrite map_app. cbn. by rewrite <- !app_assoc.
Qed.

(** C10: as long as the consumer has not seen the generator finish,
    whether a chapter fetch raised or the consumer stopped asking, the
    book is the one the generator was given, item list included, and no
    mutation of it is among the events of the run; in a run it sees
    finish, every request and every yield comes before the first
    mutation. *)
Theorem chapters_attached_only_at_the_end (n : nat) (data : story_dict)
    (c : cookies) (w w' : world)
    (res : result (list pystr * option generator)) :
  pull n (add_chapters data c) w = (res, w') →
  (exhausted res = false →
     book w' = book w
     ∧ items (book w') = items (book w)
     ∧ ∃ evs, events w' = events w ++ evs ∧ mutations evs = [])
  ∧ (exhausted res = true →
     ∃ s chs,
       data = StoryDict s
       ∧ events w'
         = events w ++ loop_events c (story_parts s) ++ finish_events chs
       ∧ mutations (loop_events c (story_parts s)) = []).
Proof.
  intros Hrun. split; intros Hres.
  - destruct (pull_book_untouched _ _ _ _ _ Hrun Hres) as [Hb Hev].
    by rewrite Hb.
  - destruct res as [[ts [g|]]|e]; try discriminate Hres.
    destruct n as [|n]; [discriminate Hrun|].
    destruct data as [|s]; [discriminate Hrun|].
    rewrite pull_created in Hrun.
    apply pull_exhausted in Hrun as (texts & _ & _ & Hev & _).
    eexists s, _. split_and!; [done | exact Hev | apply loop_events_mutations].
Qed.

End PipelineFacts.

(** ** The scenarios *)

(** The server answers 500 twice: one retry after the sleep, then
    [TimeoutError]. *)
Lemma retrieve_story_policy_witness :
  metadata_error (reply 500) = true
  ∧ @retrieve_story net_500 7 true demo_credentials fresh
    = (Raise TimeoutError,
       logged fresh [Sent (get (StoryUrl 7) demo_credentials); Slept 15;
                     Sent (get (StoryUrl 7) ∅)]).
Proof.
  split; [reflexivity|].
  destruct (@retrieve_story_policy net_500 7 demo_credentials fresh)
    as (_ & Hretry & _).
  destruct (Hretry eq_refl) as (res & -> & Hfail & _).
  by rewrite (Hfail eq_refl).
Defined.

(** C5 as stated fails: a success response whose content type is not JSON
    is an error condition other than 404 and 400, and it triggers no
    retry; [response.json()] raises [ContentTypeError], which is not a
    [ValueError], so the handler of line 70 is not entered and the
    exception leaves [retrieve_story] after the one request, without
    sleep, and it is not a [TimeoutError]. *)
Lemma content_type_error_is_not_retried :
  @retrieve_story net_html 7 true demo_credentials fresh
  = (Raise ContentTypeError,
     logged fresh [Sent (get (StoryUrl 7) demo_credentials)])
  ∧ ContentTypeError ≠ TimeoutError
  ∧ is_ValueError ContentTypeError = false.
Proof. split_and!; by vm_compute. Qed.

(** A chapter that is not found, and a cover that meets a server error. *)
Lemma fetch_not_found_or_fail_witness :
  status (reply 404) = 404%Z
  ∧ @fetch_part_content net_404 11 true demo_credentials fresh
    = (Ok [], logged fresh [Sent (get (StoryTextUrl 11) demo_credentials)])
  ∧ @fetch_cover net_500 (story_cover demo_story) demo_credentials fresh
    = (Raise (ValueError "Status Code:" (Some 500%Z)),
       logged fresh [Sent (get (Url (story_cover demo_story)) demo_credentials)]).
Proof.
  split; [reflexivity|]. split.
  - apply (@fetch_not_found_or_fail net_404 11 true [] demo_credentials fresh).
    by left.
  - apply (@fetch_not_found_or_fail net_500 11 true (story_cover demo_story)
             demo_credentials fresh); cbn; lia.
Defined.

(** A login that is answered 204 with a session cookie. *)
Lemma wp_get_cookies_outcome_witness :
  ∃ res w' evs,
    @wp_get_cookies hangul_ucd net_login (lit "Reader") (lit "pw") fresh = (res, w')
    ∧ events w' = events fresh ++ evs
    ∧ sent_requests evs = [@login_request hangul_ucd (lit "Reader") (lit "pw")]
    ∧ ((∃ e, res = Raise e)
       ↔ (204 ≠ 204 ∨ (204 = 204 ∧ demo_credentials = ∅)))%Z
    ∧ (∀ e, res = Raise e → ∃ msg, e = ValueError msg None)
    ∧ (∀ jar, res = Ok jar → jar = demo_credentials ∧ jar ≠ ∅).
Proof.
  exact (@wp_get_cookies_outcome hangul_ucd net_login (lit "Reader") (lit "pw") fresh).
Defined.

(** The finished run over the two-part story. *)
Lemma spine_is_nav_then_chapters_witness :
  ∃ chs : list EpubHtml,
    Forall2 (λ p ch, title ch = part_title p
                     ∧ file_name ch
                       = @slugify hangul_ucd (part_title p) false ++ lit ".xhtml"
                     ∧ lang ch = lit "English")
      (story_parts demo_story) chs
    ∧ spine (book demo_run.2) = SpineId "nav" :: map SpineItem chs
    ∧ toc (book demo_run.2) = chs
    ∧ items (book demo_run.2) = [] ++ map HtmlItem chs ++ [NcxItem; NavItem].
Proof.
  apply (@spine_is_nav_then_chapters hangul_ucd net_ok 3 demo_story
           demo_credentials fresh demo_run.2 (map part_title (story_parts demo_story))).
  by vm_compute.
Defined.

(** C1 as stated fails: on the two-part story the spine has three
    entries, ["nav"] and the two chapters; the contents index is an item
    of the book and not an entry of the spine, so no spine of the shape
    [navigation entry, contents-index entry, chapter_1, chapter_2] is
    there. *)
Lemma spine_has_no_contents_index_entry :
  spine (book demo_run.2)
  = [SpineId "nav";
     SpineItem (@make_chapter hangul_ucd (lit "English") (lit "Chapter One")
                  (lit "<p>text</p>"));
     SpineItem (@make_chapter hangul_ucd (lit "English") (lit "The End!")
                  (lit "<p>text</p>"))]
  ∧ ¬ ∃ nav ncx ch1 ch2,
        spine (book demo_run.2) = [nav; ncx; SpineItem ch1; SpineItem ch2].
Proof.
  split; [by vm_compute|]. intros (nav & ncx & ch1 & ch2 & H).
  apply (f_equal length) in H. vm_compute in H. discriminate H.
Qed.

(** The two titles of the finished run, in order. *)
Lemma progress_events_are_titles_witness :
  map part_title (story_parts demo_story) = [lit "Chapter One"; lit "The End!"]
  ∧ length (map part_title (story_parts demo_story)) = 2%nat
  ∧ ∃ evs, events demo_run.2 = [] ++ evs
           ∧ yielded_titles evs = [lit "Chapter One"; lit "The End!"].
Proof.
  destruct (@progress_events_are_titles hangul_ucd net_ok 3 demo_story
              demo_credentials fresh) as [Hdone _].
  apply (Hdone (map part_title (story_parts demo_story)) demo_run.2).
  by vm_compute.
Defined.

(** The consumer stops after the first title. *)
Lemma title_yielded_after_fetch_and_append_witness :
  @pull hangul_ucd net_ok 1 (add_chapters (StoryDict demo_story) demo_credentials)
    fresh
  = (Ok ([lit "Chapter One"], Some demo_suspended),
     logged fresh [Sent (get (StoryTextUrl 11) demo_credentials);
                   Yielded (lit "Chapter One")])
  ∧ map title (gen_chapters demo_suspended) = [lit "Chapter One"]
  ∧ book (logged fresh [Sent (get (StoryTextUrl 11) demo_credentials);
                        Yielded (lit "Chapter One")]) = empty_book.
Proof.
  assert (@pull hangul_ucd net_ok 1
            (add_chapters (StoryDict demo_story) demo_credentials) fresh
          = (Ok ([lit "Chapter One"], Some demo_suspended),
             logged fresh [Sent (get (StoryTextUrl 11) demo_credentials);
                           Yielded (lit "Chapter One")])) as Hrun
    by (by vm_compute).
  split; [exact Hrun|].
  destruct (@title_yielded_after_fetch_and_append hangul_ucd net_ok 1 demo_story
              demo_credentials fresh _ _ _ Hrun) as (_ & _ & Hchs & _ & Hbook).
  by split.
Defined.

(** C4 as stated fails: when the first title reaches the consumer, the
    chapter sequence of the suspended generator already holds the entry
    of that chapter; [chapters.append(chapter)] at line 171 runs before
    [yield title] at line 173. *)
Lemma entry_appended_before_its_title_is_yielded :
  @anext hangul_ucd net_ok (add_chapters (StoryDict demo_story) demo_credentials)
    fresh
  = (Ok (Next (lit "Chapter One") demo_suspended),
     logged fresh [Sent (get (StoryTextUrl 11) demo_credentials);
                   Yielded (lit "Chapter One")])
  ∧ gen_chapters demo_suspended
    = [@make_chapter hangul_ucd (lit "English") (lit "Chapter One")
         (lit "<p>text</p>")]
  ∧ gen_chapters demo_suspended ≠ [].
Proof. split_and!; by vm_compute. Qed.

(** The second chapter fetch fails after the first title was yielded: the
    book is still empty. *)
Lemma chapters_attached_only_at_the_end_witness :
  failed_run.1 = Raise (ValueError "Status Code:" (Some 500%Z))
  ∧ yielded_titles (events failed_run.2) = [lit "Chapter One"]
  ∧ book failed_run.2 = empty_book
  ∧ items (book failed_run.2) = [].
Proof.
  split; [by vm_compute|]. split; [by vm_compute|].
  destruct (@chapters_attached_only_at_the_end hangul_ucd net_part12_500 3
              (StoryDict demo_story) demo_credentials fresh failed_run.2 failed_run.1)
    as [Hstop _].
  - exact (surjective_pairing failed_run).
  - destruct Hstop as (Hb & Hi & _); [by vm_compute|]. by split.
Defined.

(** C3 fails on the code: with the credentials of the run in hand, the
    retried metadata request (line 74) and the cover request (line 153)
    are sent with the empty default cookies, while the chapter requests
    carry the credentials. *)
Lemma credentials_dropped_by_retry_and_cover :
  sent_requests (events (@retrieve_story net_500 7 true demo_credentials fresh).2)
  = [get (StoryUrl 7) demo_credentials; get (StoryUrl 7) ∅]
  ∧ sent_requests (events (@set_cover net_ok (StoryDict demo_story) fresh).2)
    = [get (Url (story_cover demo_story)) ∅]
  ∧ sent_requests (events demo_run.2)
    = [get (StoryTextUrl 11) demo_credentials; get (StoryTextUrl 12) demo_credentials]
  ∧ demo_credentials ≠ ∅.
Proof. split_and!; by vm_compute. Qed.

(** * Further properties *)

(** ** [slugify], lines 107-127 *)

Section SlugifyMore.
Context {U : UnicodeData}.

Ltac chars' :=
  unfold slug_char, lower_alnum_or_hyphen, keep_char, sep_char, strip_char,
    re_space, py_isspace, ascii_alnum, ascii_tolower, ascii_upper,
    ascii_lower, ascii_digit, is_ascii, hyphen, underscore in *.

Lemma forallb_Forall {A} (f : A → bool) (l : list A) :
  forallb f l = true ↔ Forall (λ x, f x = true) l.
Proof.
  rewrite forallb_forall, Forall_forall.
  split; intros H x Hx; apply H; by apply list_elem_of_In.
Qed.

Lemma strip_only_strip_chars (s : pystr) :
  Forall (λ c, strip_char c = true) s → strip s = [].
Proof.
  intros Hs. unfold strip.
  assert (lstrip s = []) as ->.
  { induction Hs as [|c s Hc _ IH]; [done|]. cbn. by rewrite Hc. }
  done.
Qed.

Lemma elem_of_lstrip (c : N) (s : pystr) :
  c ∈ s → strip_char c = false → c ∈ lstrip s.
Proof.
  intros Hin Hc. induction s as [|d s IH]; [done|].
  cbn. destruct (strip_char d) eqn:Hd; [|done].
  apply IH. apply elem_of_cons in Hin as [->|]; [congruence | done].
Qed.

Lemma elem_of_strip (c : N) (s : pystr) :
  c ∈ s → strip_char c = false → c ∈ strip s.
Proof.
  intros Hin Hc. unfold strip, rstrip.
  apply elem_of_reverse, elem_of_lstrip; [|done].
  by apply elem_of_reverse, elem_of_lstrip.
Qed.

Lemma elem_of_collapse_runs (b : bool) (c : N) (s : pystr) :
  c ∈ s → sep_char c = false → c ∈ collapse_runs b s.
Proof.
  intros Hin Hc. revert b. induction s as [|d s IH]; intros b; [done|].
  cbn. apply elem_of_cons in Hin as [<-|Hin].
  - rewrite Hc. apply elem_of_cons. by left.
  - destruct (sep_char d); [destruct b|]; try apply elem_of_cons; auto.
Qed.

Lemma collapse_runs_only_strip_chars (b : bool) (s : pystr) :
  Forall (λ c, sep_char c || strip_char c = true) s →
  Forall (λ c, strip_char c = true) (collapse_runs b s).
Proof.
  intros Hs. revert b. induction Hs as [|c s Hc _ IH]; intros b; [constructor|].
  cbn. destruct (sep_char c) eqn:Hsep.
  - destruct b; [apply IH|]. constructor; [done | apply IH].
  - constructor; [exact Hc | apply IH].
Qed.

Lemma collapse_runs_length (b : bool) (s : pystr) :
  (length (collapse_runs b s) ≤ length s)%nat.
Proof.
  revert b. induction s as [|c s IH]; intros b; [done|].
  pose proof (IH true). pose proof (IH false).
  cbn. destruct (sep_char c); [destruct b|]; cbn; lia.
Qed.

Lemma strip_length (s : pystr) : (length (strip s) ≤ length s)%nat.
Proof.
  destruct (strip_parts s) as (k1 & k2 & H).
  rewrite H at 2. rewrite !length_app. lia.
Qed.

(** X1: in both modes the slug has no white space and no two hyphens in a
    row, and it neither starts nor ends with a hyphen or an underscore. *)
Theorem slugify_shape_in_both_modes (x : pystr) (allow_unicode : bool) :
  runs_collapsed false (slugify x allow_unicode) = true
  ∧ edges_clean (slugify x allow_unicode) = true.
Proof.
  unfold slugify. split.
  - apply strip_collapsed, collapse_runs_collapsed.
  - apply strip_edges.
Qed.

(** X2: in the default mode the strings that [slugify] returns unchanged
    are exactly the well-formed slugs, given that [NFKD] leaves ASCII
    strings unchanged. *)
Theorem slugify_fixed_points :
  (∀ s, forallb is_ascii s = true → nfkd s = s) →
  ∀ y, slugify y false = y ↔ slug_shaped y = true.
Proof.
  intros Hnfkd y. unfold slug_shaped. rewrite !andb_true_iff, forallb_Forall.
  split.
  - intros <-. destruct (slugify_shape y) as (? & ? & ?). done.
  - intros [[Hc Hr] He]. apply slugify_fix; [|done..].
    apply Hnfkd, forallb_Forall. eapply Forall_impl; [exact Hc|].
    intros c ?. chars'. lia.
Qed.

(** X3: in the default mode two ASCII titles that differ only in the case
    of their letters have the same slug, hence the chapters built from
    them the same file name, given that [NFKD] leaves ASCII strings
    unchanged. *)
Theorem slugify_ignores_ascii_case :
  (∀ s, forallb is_ascii s = true → nfkd s = s) →
  ∀ x y,
    forallb is_ascii x = true → forallb is_ascii y = true →
    map ascii_tolower x = map ascii_tolower y →
    slugify x false = slugify y false
    ∧ ∀ language tx ty,
        file_name (make_chapter language x tx)
        = file_name (make_chapter language y ty).
Proof.
  intros Hnfkd x y Hx Hy Hxy.
  assert (slugify x false = slugify y false) as Heq.
  { rewrite !slugify_default, (Hnfkd x Hx), (Hnfkd y Hy).
    rewrite !filter_all by (by apply forallb_Forall). by rewrite Hxy. }
  split; [done|]. intros language tx ty. cbn. by rewrite Heq.
Qed.

(** X4: in the default mode the slug is empty exactly when the [NFKD] form
    of the title has no ASCII letter and no ASCII digit. *)
Theorem slugify_empty_iff (x : pystr) :
  slugify x false = []
  ↔ existsb (λ c, is_ascii c && ascii_alnum c) (nfkd x) = false.
Proof.
  rewrite slugify_default. split.
  - intros Hempty. apply not_true_is_false. intros Hex.
    apply existsb_exists in Hex as (c0 & Hin & Hc0).
    apply list_elem_of_In in Hin. apply andb_prop in Hc0 as [Ha Hal].
    destruct (tolower_ascii c0 Ha) as [Ha' Hu'].
    assert (ascii_alnum (ascii_tolower c0) = true) as Hal'.
    { unfold ascii_tolower in *. destruct (ascii_upper c0) eqn:Hu; [|done].
      chars'. lia. }
    assert (ascii_tolower c0 ∈ strip (re_sub_runs (re_sub_strip_class
              (map ascii_tolower (filter (λ c, is_ascii c = true) (nfkd x))))))
      as Hmem.
    { revert Ha' Hu' Hal'.
      assert (ascii_tolower c0
              ∈ map ascii_tolower (filter (λ c, is_ascii c = true) (nfkd x))) as Hm.
      { apply list_elem_of_fmap. exists c0. split; [done|].
        by apply list_elem_of_filter. }
      revert Hm. generalize (ascii_tolower c0). intros c Hm Ha' Hu' Hal'.
      apply elem_of_strip; [|chars'; lia].
      apply elem_of_collapse_runs; [|chars'; lia].
      apply list_elem_of_filter. split; [|done].
      unfold keep_char, re_word. rewrite Ha'. chars'. lia. }
    rewrite Hempty in Hmem. by apply elem_of_nil in Hmem.
  - intros Hnone. apply strip_only_strip_chars, collapse_runs_only_strip_chars.
    apply Forall_forall. intros c Hc.
    apply list_elem_of_filter in Hc as [Hk Hc].
    apply list_elem_of_fmap in Hc as (c0 & -> & Hc0).
    apply list_elem_of_filter in Hc0 as [Ha Hc0].
    assert (ascii_alnum c0 = false) as Hal.
    { apply not_true_is_false. intros Hal.
      assert (existsb (λ c, is_ascii c && ascii_alnum c) (nfkd x) = true) as Hex.
      { apply existsb_exists. exists c0. split; [by apply list_elem_of_In|].
        by rewrite Ha, Hal. }
      congruence. }
    assert (ascii_tolower c0 = c0) as Hid.
    { unfold ascii_tolower. destruct (ascii_upper c0) eqn:Hu; [|done].
      chars'. lia. }
    rewrite Hid in *. unfold keep_char, re_word in Hk. rewrite Ha in Hk.
    chars'. lia.
Qed.

(** X5: in the default mode the slug is never longer than the [NFKD] form
    of the title. *)
Theorem slugify_not_longer (x : pystr) :
  (length (slugify x false) ≤ length (nfkd x))%nat.
Proof.
  rewrite slugify_default.
  pose proof (strip_length (re_sub_runs (re_sub_strip_class
    (map ascii_tolower (filter (λ c, is_ascii c = true) (nfkd x)))))) as H1.
  pose proof (collapse_runs_length false (re_sub_strip_class
    (map ascii_tolower (filter (λ c, is_ascii c = true) (nfkd x))))) as H2.
  pose proof (length_filter (λ c, keep_char c = true)
    (map ascii_tolower (filter (λ c, is_ascii c = true) (nfkd x)))) as H3.
  pose proof (length_filter (λ c, is_ascii c = true) (nfkd x)) as H4.
  rewrite length_map in H3. unfold re_sub_runs, re_sub_strip_class in *. lia.
Qed.

(** X6: encoding to ASCII with [ignore] and decoding the bytes never
    fails; it keeps exactly the ASCII code points, in order, so an ASCII
    string comes back unchanged. *)
Theorem ascii_encode_decode_round_trip (s : pystr) :
  decode_ascii (encode_ascii_ignore s) = Some (filter (λ c, is_ascii c = true) s)
  ∧ (forallb is_ascii s = true → decode_ascii (encode_ascii_ignore s) = Some s).
Proof.
  split; [apply decode_encode_ascii|].
  intros Hs. rewrite decode_encode_ascii, filter_all; [done|].
  by apply forallb_Forall.
Qed.

End SlugifyMore.

(** A slug that is well formed already. *)
Lemma slugify_fixed_points_witness :
  (∀ s, forallb is_ascii s = true → @nfkd hangul_ucd s = s)
  ∧ slug_shaped (lit "chapter-1_draft") = true
  ∧ @slugify hangul_ucd (lit "chapter-1_draft") false = lit "chapter-1_draft".
Proof.
  split; [exact hangul_nfkd_ascii|]. split; [reflexivity|].
  by apply (@slugify_fixed_points hangul_ucd hangul_nfkd_ascii).
Defined.

(** Two spellings of one title. *)
Lemma slugify_ignores_ascii_case_witness :
  map ascii_tolower (lit "The END") = map ascii_tolower (lit "the end")
  ∧ @slugify hangul_ucd (lit "The END") false
    = @slugify hangul_ucd (lit "the end") false.
Proof.
  split; [reflexivity|].
  by apply (@slugify_ignores_ascii_case hangul_ucd hangul_nfkd_ascii).
Defined.

(** The round trip on an ASCII title. *)
Lemma ascii_encode_decode_round_trip_witness :
  forallb is_ascii (lit "The End!") = true
  ∧ decode_ascii (encode_ascii_ignore (lit "The End!")) = Some (lit "The End!").
Proof.
  split; [reflexivity|].
  by apply ascii_encode_decode_round_trip.
Defined.

(** ** The fetchers, [set_cover] and [add_chapters] *)

Section PipelineMore.
Context {U : UnicodeData} {Net : Network}.

Lemma retrieve_story_run (story_id : Z) (retry : bool) (c : cookies) (w : world) :
  retrieve_story story_id retry c w
  = let rq := get (StoryUrl story_id) c in
    let r := transport (events w) rq in
    let answer r evs :=
      if content_type_error r then (Raise ContentTypeError, logged w evs)
      else (Ok (metadata_body r), logged w evs) in
    if metadata_error r then
      if retry then
        let rq' := get (StoryUrl story_id) ∅ in
        let r' := transport (events w ++ [Sent rq; Slept 15]) rq' in
        if metadata_error r'
        then (Raise TimeoutError, logged w [Sent rq; Slept 15; Sent rq'])
        else answer r' [Sent rq; Slept 15; Sent rq']
      else (Raise TimeoutError, logged w [Sent rq])
    else answer r [Sent rq].
Proof.
  rewrite retrieve_story_unfold, retrieve_story_body_run. cbn zeta.
  destruct (metadata_error _); [|done]. destruct retry; [|done].
  rewrite retrieve_story_unfold, retrieve_story_body_run. cbn zeta.
  unfold logged. cbn [events book]. rewrite <- !app_assoc. cbn [app].
  by destruct (metadata_error _).
Qed.


(** X8: on a response with a status below 400 each fetcher returns the
    body after one request that carries the cookies it was given: the
    decoded JSON for the story, provided it decodes, the text for a
    chapter, the bytes for the cover. *)
Theorem fetchers_return_the_body (story_id part : Z) (url : pystr)
    (retry : bool) (c : cookies) (w : world) :
  let rs := transport (events w) (get (StoryUrl story_id) c) in
  let rp := transport (events w) (get (StoryTextUrl part) c) in
  let rc := transport (events w) (get (Url url) c) in
  (∀ d, (status rs < 400)%Z → resp_json rs = JsonValue d →
     retrieve_story story_id retry c w
     = (Ok d, logged w [Sent (get (StoryUrl story_id) c)]))
  ∧ ((status rp < 400)%Z →
     fetch_part_content part retry c w
     = (Ok (resp_text rp), logged w [Sent (get (StoryTextUrl part) c)]))
  ∧ ((status rc < 400)%Z →
     fetch_cover url c w
     = (Ok (resp_read rc), logged w [Sent (get (Url url) c)])).
Proof.
  intros rs rp rc. split_and!.
  - intros d Hst Hd. rewrite retrieve_story_run. cbn zeta. fold rs.
    assert (metadata_error rs = false) as ->
      by (unfold metadata_error; rewrite Hd; lia).
    assert (content_type_error rs = false) as ->
      by (unfold content_type_error; rewrite Hd; lia).
    unfold metadata_body.
    assert (ok rs = true) as -> by (unfold ok; lia). by rewrite Hd.
  - intros Hst. rewrite fetch_part_content_run. cbn zeta. fold rp.
    unfold fetch_failed, part_text.
    assert (ok rp = true) as -> by (unfold ok; lia). done.
  - intros Hst. rewrite fetch_cover_run. cbn zeta. fold rc.
    unfold fetch_failed.
    assert (ok rc = true) as -> by (unfold ok; lia). done.
Qed.

(** X9: the login depends on the user name only through its lower-case
    form: two ASCII user names that differ only in the case of their
    letters send the same request and get the same outcome. *)
Theorem login_ignores_ascii_case (u1 u2 password : pystr) (w : world) :
  forallb is_ascii u1 = true → forallb is_ascii u2 = true →
  map ascii_tolower u1 = map ascii_tolower u2 →
  login_request u1 password = login_request u2 password
  ∧ wp_get_cookies u1 password w = wp_get_cookies u2 password w.
Proof.
  intros H1 H2 Heq.
  assert (login_request u1 password = login_request u2 password) as Hrq.
  { unfold login_request, py_lower. by rewrite H1, H2, Heq. }
  split; [done|]. unfold wp_get_cookies. by rewrite Hrq.
Qed.

Lemma set_cover_run (s : story) (w : world) :
  set_cover (StoryDict s) w
  = let rq := get (Url (story_cover s)) ∅ in
    let r := transport (events w) rq in
    if fetch_failed r
    then (Raise (ValueError "Status Code:" (Some (status r))), logged w [Sent rq])
    else
      let img := if ok r then resp_read r else [] in
      (Ok (), {| events := events w ++ [Sent rq; Mutated (SetCover (lit "cover.jpg") img)];
                 book := apply_op (SetCover (lit "cover.jpg") img) (book w) |}).
Proof.
  unfold set_cover. rewrite bind_run, fetch_cover_run. cbn zeta.
  destruct (fetch_failed _); [done|].
  unfold mutate, logged. cbn. by rewrite <- app_assoc.
Qed.

(** X11: when [set_cover] raises, the book is the one it was given: either
    the record has no cover key ([KeyError], nothing sent), or the one
    request for the cover, made without cookies, met a status from 400 on
    other than 404 and 400 ([ValueError] with the status). *)
Theorem set_cover_raises_before_the_book (data : story_dict) (w w' : world) (e : exn) :
  set_cover data w = (Raise e, w') →
  book w' = book w
  ∧ ((data = EmptyDict ∧ e = KeyError "cover" ∧ w' = w)
     ∨ ∃ s r, data = StoryDict s
              ∧ r = transport (events w) (get (Url (story_cover s)) ∅)
              ∧ (400 ≤ status r)%Z ∧ status r ≠ 404%Z ∧ status r ≠ 400%Z
              ∧ e = ValueError "Status Code:" (Some (status r))
              ∧ events w' = events w ++ [Sent (get (Url (story_cover s)) ∅)]).
Proof.
  destruct data as [|s].
  - intros [= <- <-]. split; [done|]. by left.
  - rewrite set_cover_run. cbn zeta.
    destruct (fetch_failed _) eqn:Hf; [|discriminate].
    intros [= <- <-]. split; [done|]. right. eexists s, _.
    split_and!; try done;
      unfold fetch_failed, ok, status_not_found in Hf; lia.
Qed.

(** X12: when [set_cover] returns, it has made one request, for the cover
    URL of the record and without cookies, and the book has two more
    items after the ones it had, the image under the name [cover.jpg]
    and its page; the image is the body of a success response and empty
    on a 404 or 400; the table of contents and the spine are as before. *)
Theorem set_cover_installs_the_cover (data : story_dict) (w w' : world) :
  set_cover data w = (Ok (), w') →
  ∃ s img evs,
    data = StoryDict s
    ∧ events w' = events w ++ evs
    ∧ sent_requests evs = [get (Url (story_cover s)) ∅]
    ∧ items (book w')
      = items (book w) ++ [CoverItem (lit "cover.jpg") img;
                           CoverHtmlItem (lit "cover.jpg")]
    ∧ toc (book w') = toc (book w)
    ∧ spine (book w') = spine (book w)
    ∧ let r := transport (events w) (get (Url (story_cover s)) ∅) in
      ((status r < 400)%Z → img = resp_read r)
      ∧ ((status r = 404 ∨ status r = 400)%Z → img = []).
Proof.
  destruct data as [|s]; [discriminate|].
  rewrite set_cover_run. cbn zeta.
  destruct (fetch_failed _) eqn:Hf; [discriminate|].
  intros [= <-]. eexists s, _, [_; _]. cbn.
  split_and!; try done.
  - intros Hst. assert (ok (transport (events w) (get (Url (story_cover s)) ∅)) = true)
      as -> by (unfold ok; lia). done.
  - intros Hst. assert (ok (transport (events w) (get (Url (story_cover s)) ∅)) = false)
      as -> by (unfold ok; lia). done.
Qed.

Lemma retrieve_story_not_found (story_id : Z) (retry : bool) (c : cookies) (w : world) :
  let r := transport (events w) (get (StoryUrl story_id) c) in
  (status r = 404 ∨ status r = 400)%Z →
  retrieve_story story_id retry c w
  = (Ok EmptyDict, logged w [Sent (get (StoryUrl story_id) c)]).
Proof.
  intros r Hst. rewrite retrieve_story_run. cbn zeta. fold r.
  assert (metadata_error r = false) as ->
    by (unfold metadata_error; destruct (resp_json r); lia).
  assert (content_type_error r = false) as ->
    by (unfold content_type_error; destruct (resp_json r); lia).
  unfold metadata_body.
  assert (ok r = false) as -> by (unfold ok; lia). done.
Qed.

(** X13: a story that is not found stops the later steps before they
    reach the network: when the story URL answers 404 or 400, fetching
    the story and handing the result to [set_cover] raises
    [KeyError("cover")], and handing it to [add_chapters] and asking
    for the first title raises [KeyError("parts")]; in both runs the
    story request is the only event and the book is untouched. *)
Theorem not_found_story_stops_cover_and_chapters
    (story_id : Z) (retry : bool) (c : cookies) (w : world) :
  let rq := get (StoryUrl story_id) c in
  let r := transport (events w) rq in
  (status r = 404 ∨ status r = 400)%Z →
  (data ← retrieve_story story_id retry c; set_cover data) w
  = (Raise (KeyError "cover"), logged w [Sent rq])
  ∧ (data ← retrieve_story story_id retry c; anext (add_chapters data c)) w
    = (Raise (KeyError "parts"), logged w [Sent rq])
  ∧ ∀ n, (data ← retrieve_story story_id retry c; pull (S n) (add_chapters data c)) w
         = (Raise (KeyError "parts"), logged w [Sent rq]).
Proof.
  intros rq r Hst.
  rewrite !bind_run, (retrieve_story_not_found _ _ _ _ Hst). split_and!; [done..|].
  intros n. by rewrite bind_run, (retrieve_story_not_found _ _ _ _ Hst).
Qed.

Lemma loop_events_sent (c : cookies) (ps : list part_ref) :
  sent_requests (loop_events c ps)
  = map (λ p, get (StoryTextUrl (part_id p)) c) ps.
Proof. induction ps as [|p ps IH]; [done|]. cbn. by rewrite <- IH. Qed.

Lemma finish_events_sent (chs : list EpubHtml) :
  sent_requests (finish_events chs) = [].
Proof.
  unfold finish_events, sent_requests. rewrite omap_app. cbn.
  rewrite app_nil_r. by induction chs.
Qed.

(** A run in which a chapter fetch raises: the parts before it went
    through, and the failing request is the last event. *)
Lemma pull_raised (n : nat) (s : story) (c : cookies)
    (rest : list part_ref) (chs : list EpubHtml) (w w' : world) (e : exn) :
  pull n (GenSuspended s c rest chs) w = (Raise e, w') →
  ∃ k p,
    rest !! k = Some p ∧ (k < n)%nat
    ∧ let rq := get (StoryTextUrl (part_id p)) c in
      let r := transport (events w ++ loop_events c (take k rest)) rq in
      fetch_failed r = true
      ∧ e = ValueError "Status Code:" (Some (status r))
      ∧ events w' = events w ++ loop_events c (take k rest) ++ [Sent rq]
      ∧ book w' = book w.
Proof.
  revert rest chs w. induction n as [|n IH]; intros rest chs w Hrun.
  { discriminate Hrun. }
  destruct rest as [|p rest].
  - rewrite pull_end in Hrun. discriminate Hrun.
  - rewrite pull_part in Hrun. cbn zeta in Hrun.
    destruct (fetch_failed _) eqn:Hf.
    + injection Hrun as <- <-. exists 0%nat, p. cbn.
      rewrite app_nil_r. split_and!; [done | lia | done..].
    + destruct (pull n _ _) as [[[ts' g']|e'] w''] eqn:Hrest; [discriminate Hrun|].
      injection Hrun as <- <-.
      apply IH in Hrest as (k & q & Hq & Hk & Hfail & He & Hev & Hbook).
      exists (S k), q. cbn in *. rewrite <- !app_assoc in *. cbn in *.
      split_and!; [done | lia | done..].
Qed.

(** X14: iterating [add_chapters] over a story record raises only when a
    chapter fetch meets a status from 400 on other than 404 and 400, and
    then with the [ValueError] of that status: the titles of the parts
    before it were yielded, the failing request is the last event, no
    later part is requested, and the book is the one passed in. *)
Theorem chapter_failure_stops_the_run (n : nat) (s : story) (c : cookies)
    (w w' : world) (e : exn) :
  pull n (add_chapters (StoryDict s) c) w = (Raise e, w') →
  ∃ k p,
    story_parts s !! k = Some p
    ∧ let rq := get (StoryTextUrl (part_id p)) c in
      let before := loop_events c (take k (story_parts s)) in
      let r := transport (events w ++ before) rq in
      (400 ≤ status r)%Z ∧ status r ≠ 404%Z ∧ status r ≠ 400%Z
      ∧ e = ValueError "Status Code:" (Some (status r))
      ∧ events w' = events w ++ before ++ [Sent rq]
      ∧ yielded_titles (before ++ [Sent rq]) = map part_title (take k (story_parts s))
      ∧ book w' = book w.
Proof.
  destruct n as [|n]; [intros [=]|]. rewrite pull_created.
  intros (k & p & Hp & _ & Hf & He & Hev & Hbook)%pull_raised.
  exists k, p. split; [done|]. cbn zeta in *.
  unfold fetch_failed, ok, status_not_found in Hf.
  split_and!; try done; try lia.
  unfold yielded_titles. rewrite omap_app. cbn. rewrite app_nil_r.
  apply loop_events_yielded.
Qed.

(** When every chapter is answered 404 or 400, the run finishes and each
    chapter has the empty text. *)
Lemma pull_all_not_found (n : nat) (s : story) (c : cookies)
    (rest : list part_ref) (chs : list EpubHtml) (w : world) :
  (length rest < n)%nat →
  (∀ h p, p ∈ rest →
     let r := transport h (get (StoryTextUrl (part_id p)) c) in
     (status r = 404 ∨ status r = 400)%Z) →
  ∃ w', pull n (GenSuspended s c rest chs) w = (Ok (map part_title rest, None), w')
        ∧ book w'
          = finished_book
              (chs ++ map (λ p, make_chapter (story_language_name s) (part_title p) [])
                        rest)
              (book w).
Proof.
  revert n chs w. induction rest as [|p rest IH]; intros n chs w Hn Hnet.
  - destruct n as [|n]; [lia|]. rewrite pull_end. eexists. split; [done|].
    cbn. by rewrite app_nil_r.
  - destruct n as [|n]; [cbn in Hn; lia|]. rewrite pull_part. cbn zeta.
    assert (p ∈ p :: rest) as Hp by (apply elem_of_cons; by left).
    specialize (Hnet (events w) p Hp) as Hst. cbn zeta in Hst.
    assert (fetch_failed (transport (events w) (get (StoryTextUrl (part_id p)) c))
            = false) as -> by (unfold fetch_failed, ok, status_not_found; lia).
    assert (part_text (transport (events w) (get (StoryTextUrl (part_id p)) c)) = [])
      as ->.
    { unfold part_text.
      assert (ok (transport (events w) (get (StoryTextUrl (part_id p)) c)) = false)
        as -> by (unfold ok; lia). done. }
    assert (length rest < n)%nat as Hn' by (cbn in Hn; lia).
    assert (∀ h q, q ∈ rest →
              let r := transport h (get (StoryTextUrl (part_id q)) c) in
              (status r = 404 ∨ status r = 400)%Z) as Hnet'
      by (intros h q Hq; apply Hnet, elem_of_cons; by right).
    destruct (IH n (chs ++ [make_chapter (story_language_name s) (part_title p) []])
                (logged w [Sent (get (StoryTextUrl (part_id p)) c);
                           Yielded (part_title p)]) Hn' Hnet')
      as (w' & Hrun & Hbook).
    rewrite Hrun. eexists. split; [done|]. rewrite Hbook. cbn.
    by rewrite <- app_assoc.
Qed.

(** X15: chapters that are not found do not stop the run: when every
    chapter request is answered 404 or 400, the consumer that asks more
    than N times sees the run finish with all N titles, and every
    chapter of the book has its heading as whole content. *)
Theorem not_found_chapters_keep_their_heading (n : nat) (s : story) (c : cookies)
    (w : world) :
  (length (story_parts s) < n)%nat →
  (∀ h p, p ∈ story_parts s →
     let r := transport h (get (StoryTextUrl (part_id p)) c) in
     (status r = 404 ∨ status r = 400)%Z) →
  ∃ w', pull n (add_chapters (StoryDict s) c) w
        = (Ok (map part_title (story_parts s), None), w')
        ∧ map title (toc (book w')) = map part_title (story_parts s)
        ∧ Forall (λ ch, content ch = lit "<h1>" ++ title ch ++ lit "</h1>")
            (toc (book w')).
Proof.
  intros Hn Hnet. destruct n as [|n]; [lia|]. rewrite pull_created.
  destruct (pull_all_not_found (S n) s c (story_parts s) [] w Hn Hnet)
    as (w' & Hrun & Hbook).
  exists w'. split; [done|]. rewrite Hbook. cbn.
  split.
  - rewrite map_map. done.
  - apply Forall_forall. intros ch Hch.
    apply list_elem_of_fmap in Hch as (p & -> & _).
    unfold make_chapter. cbn [content title]. by rewrite app_nil_r.
Qed.

(** X16: in a run that the consumer sees finish, the file name of every
    chapter is a slug followed by [.xhtml]; the slug is made of
    lower-case ASCII letters, digits, hyphens and underscores and
    neither starts nor ends with a hyphen or an underscore. *)
Theorem chapter_file_names_are_slugs (n : nat) (s : story) (c : cookies)
    (w w' : world) (ts : list pystr) :
  pull n (add_chapters (StoryDict s) c) w = (Ok (ts, None), w') →
  length (toc (book w')) = length (story_parts s)
  ∧ Forall (λ ch, ∃ stem, file_name ch = stem ++ lit ".xhtml"
                          ∧ stem = slugify (title ch) false
                          ∧ forallb slug_char stem = true
                          ∧ edges_clean stem = true)
      (toc (book w')).
Proof.
  destruct n as [|n]; [intros [=]|]. rewrite pull_created.
  intros (texts & Hlen & _ & _ & Hbook)%pull_exhausted.
  rewrite Hbook. cbn. clear Hbook. unfold chapters_of. split.
  - rewrite length_zip_with. lia.
  - apply Forall_forall. intros ch Hch.
    apply elem_of_lookup_zip_with in Hch as (i & p & t & -> & _ & _).
    eexists. split; [reflexivity|]. cbn. split; [done|].
    destruct (slugify_shape (part_title p)) as (Hc & _ & He).
    split; [|done]. apply forallb_forall. intros d Hd.
    apply list_elem_of_In in Hd. rewrite Forall_forall in Hc. by apply Hc.
Qed.

(** X17: however far the consumer goes, [add_chapters] keeps the
    metadata and the cover of the book and every item it already had:
    the old items are a prefix of the new ones, and the log only grows. *)
Theorem add_chapters_keeps_what_the_book_had (n : nat) (data : story_dict)
    (c : cookies) (w : world) :
  let w' := (pull n (add_chapters data c) w).2 in
  metadata (book w') = metadata (book w)
  ∧ items (book w) `prefix_of` items (book w')
  ∧ events w `prefix_of` events w'.
Proof.
  cbn zeta. destruct (pull n (add_chapters data c) w) as [res w'] eqn:Hrun. cbn.
  destruct (exhausted res) eqn:Hres.
  - destruct res as [[ts [g|]]|e]; try discriminate Hres.
    destruct n as [|n]; [discriminate Hrun|].
    destruct data as [|s]; [discriminate Hrun|].
    rewrite pull_created in Hrun.
    apply pull_exhausted in Hrun as (texts & _ & _ & Hev & Hbook).
    rewrite Hbook, Hev. cbn. split_and!; [done | by apply prefix_app_r|].
    by apply prefix_app_r.
  - destruct (pull_book_untouched _ _ _ _ _ Hrun Hres) as (Hb & evs & Hev & _).
    rewrite Hb, Hev. split_and!; [done..|]. by apply prefix_app_r.
Qed.

(** A consumer that asks no more often than there are parts, when no
    fetch fails: it gets one title per call and leaves the generator
    suspended before the parts that remain. *)
Lemma pull_takes (n : nat) (s : story) (c : cookies)
    (rest : list part_ref) (chs : list EpubHtml) (w : world) :
  (n ≤ length rest)%nat →
  (∀ h p, p ∈ rest →
     fetch_failed (transport h (get (StoryTextUrl (part_id p)) c)) = false) →
  ∃ chs' w', pull n (GenSuspended s c rest chs) w
             = (Ok (map part_title (take n rest),
                    Some (GenSuspended s c (drop n rest) chs')), w')
             ∧ length chs' = (length chs + n)%nat
             ∧ book w' = book w.
Proof.
  revert rest chs w. induction n as [|n IH]; intros rest chs w Hn Hnet.
  { eexists _, _. split; [reflexivity|]. split; [cbn; lia | done]. }
  destruct rest as [|p rest]; [cbn in Hn; lia|].
  rewrite pull_part. cbn zeta. rewrite Hnet by set_solver.
  edestruct (IH rest) as (chs' & w' & -> & Hlen & Hbook);
    [cbn in Hn; lia | intros; apply Hnet; set_solver |].
  eexists _, _. split; [reflexivity|]. split; [|done].
  rewrite Hlen, length_app. cbn. lia.
Qed.

(** X18: receiving the N titles is not the end of the run: when no fetch
    fails, a consumer that asks exactly as often as there are parts gets
    the N titles, the generator is still suspended and holds the N
    entries, and the book has received nothing; one more call attaches
    the chapters and ends the iteration. *)
Theorem taking_the_titles_does_not_attach (s : story) (c : cookies) (w : world) :
  story_parts s ≠ [] →
  (∀ h p, p ∈ story_parts s →
     fetch_failed (transport h (get (StoryTextUrl (part_id p)) c)) = false) →
  ∃ g w' w'',
    pull (length (story_parts s)) (add_chapters (StoryDict s) c) w
    = (Ok (map part_title (story_parts s), Some g), w')
    ∧ length (gen_chapters g) = length (story_parts s)
    ∧ book w' = book w
    ∧ pull 1 g w' = (Ok ([], None), w'')
    ∧ map title (toc (book w'')) = map title (gen_chapters g).
Proof.
  intros Hne Hnet.
  destruct (length (story_parts s)) as [|n] eqn:Hlen.
  { by destruct (story_parts s). }
  rewrite pull_created, <- Hlen.
  destruct (pull_takes (length (story_parts s)) s c (story_parts s) [] w
              ltac:(done) Hnet) as (chs' & w' & Hrun & Hchs & Hbook).
  rewrite firstn_all, drop_all in Hrun.
  eexists _, w', _. split; [exact Hrun|]. cbn [gen_chapters].
  split; [by rewrite Hchs|]. split; [done|].
  rewrite pull_end. split; [reflexivity|]. done.
Qed.

(** X19: in a run that the consumer sees finish, exactly one request was
    sent per part, in the order of the parts, each a GET of that part's
    text with the cookies given to [add_chapters]. *)
Theorem one_request_per_part (n : nat) (s : story) (c : cookies)
    (w w' : world) (ts : list pystr) :
  pull n (add_chapters (StoryDict s) c) w = (Ok (ts, None), w') →
  ∃ evs, events w' = events w ++ evs
         ∧ sent_requests evs
           = map (λ p, get (StoryTextUrl (part_id p)) c) (story_parts s)
         ∧ length (sent_requests evs) = length (story_parts s).
Proof.
  destruct n as [|n]; [intros [=]|]. rewrite pull_created.
  intros (texts & _ & _ & Hev & _)%pull_exhausted.
  eexists. split; [exact Hev|].
  unfold sent_requests. rewrite omap_app.
  fold (sent_requests (loop_events c (story_parts s))).
  fold (sent_requests (finish_events ([] ++ chapters_of s (story_parts s) texts))).
  rewrite loop_events_sent, finish_events_sent, app_nil_r.
  split; [done | by rewrite length_map].
Qed.

End PipelineMore.

(** ** The scenarios of the further properties *)

(** A story, a chapter and a cover that are all served. *)
Lemma fetchers_return_the_body_witness :
  @retrieve_story net_ok 7 true demo_credentials fresh
  = (Ok (StoryDict demo_story),
     logged fresh [Sent (get (StoryUrl 7) demo_credentials)])
  ∧ @fetch_part_content net_ok 11 true demo_credentials fresh
    = (Ok (lit "<p>text</p>"),
       logged fresh [Sent (get (StoryTextUrl 11) demo_credentials)]).
Proof.
  split.
  - apply (@fetchers_return_the_body net_ok 7 11 [] true demo_credentials fresh);
      [reflexivity | reflexivity].
  - apply (@fetchers_return_the_body net_ok 7 11 [] true demo_credentials fresh).
    reflexivity.
Defined.

(** One user name in two spellings. *)
Lemma login_ignores_ascii_case_witness :
  map ascii_tolower (lit "Reader") = map ascii_tolower (lit "READER")
  ∧ @wp_get_cookies hangul_ucd net_login (lit "Reader") (lit "pw") fresh
    = @wp_get_cookies hangul_ucd net_login (lit "READER") (lit "pw") fresh.
Proof.
  split; [reflexivity|].
  by apply (@login_ignores_ascii_case hangul_ucd net_login).
Defined.

(** The cover meets a server error. *)
Lemma set_cover_raises_before_the_book_witness :
  @set_cover net_500 (StoryDict demo_story) fresh
  = (Raise (ValueError "Status Code:" (Some 500%Z)),
     logged fresh [Sent (get (Url (story_cover demo_story)) ∅)])
  ∧ book (logged fresh [Sent (get (Url (story_cover demo_story)) ∅)]) = book fresh.
Proof.
  assert (@set_cover net_500 (StoryDict demo_story) fresh
          = (Raise (ValueError "Status Code:" (Some 500%Z)),
             logged fresh [Sent (get (Url (story_cover demo_story)) ∅)])) as Hrun
    by (by vm_compute).
  split; [exact Hrun|].
  by destruct (@set_cover_raises_before_the_book net_500 _ _ _ _ Hrun).
Defined.

(** The cover is not found: an empty image is installed. *)
Lemma set_cover_installs_the_cover_witness :
  ∃ s img evs,
    StoryDict demo_story = StoryDict s
    ∧ events (@set_cover net_404 (StoryDict demo_story) fresh).2 = events fresh ++ evs
    ∧ sent_requests evs = [get (Url (story_cover s)) ∅]
    ∧ items (book (@set_cover net_404 (StoryDict demo_story) fresh).2)
      = items (book fresh) ++ [CoverItem (lit "cover.jpg") img;
                               CoverHtmlItem (lit "cover.jpg")]
    ∧ toc (book (@set_cover net_404 (StoryDict demo_story) fresh).2) = toc (book fresh)
    ∧ spine (book (@set_cover net_404 (StoryDict demo_story) fresh).2)
      = spine (book fresh)
    ∧ let r := @transport net_404 (events fresh) (get (Url (story_cover s)) ∅) in
      ((status r < 400)%Z → img = resp_read r)
      ∧ ((status r = 404 ∨ status r = 400)%Z → img = []).
Proof.
  apply (@set_cover_installs_the_cover net_404). by vm_compute.
Defined.

(** The story is not found. *)
Lemma not_found_story_stops_cover_and_chapters_witness :
  status (reply 404) = 404%Z
  ∧ (data ← @retrieve_story net_404 7 true demo_credentials;
     @set_cover net_404 data) fresh
    = (Raise (KeyError "cover"),
       logged fresh [Sent (get (StoryUrl 7) demo_credentials)]).
Proof.
  split; [reflexivity|].
  apply (@not_found_story_stops_cover_and_chapters hangul_ucd net_404 7 true
           demo_credentials fresh).
  by left.
Defined.

(** The second chapter meets a server error. *)
Lemma chapter_failure_stops_the_run_witness :
  failed_run = (Raise (ValueError "Status Code:" (Some 500%Z)), failed_run.2)
  ∧ ∃ k p,
      story_parts demo_story !! k = Some p
      ∧ let rq := get (StoryTextUrl (part_id p)) demo_credentials in
        let before := loop_events demo_credentials (take k (story_parts demo_story)) in
        let r := @transport net_part12_500 (events fresh ++ before) rq in
        (400 ≤ status r)%Z ∧ status r ≠ 404%Z ∧ status r ≠ 400%Z
        ∧ ValueError "Status Code:" (Some 500%Z)
          = ValueError "Status Code:" (Some (status r))
        ∧ events failed_run.2 = events fresh ++ before ++ [Sent rq]
        ∧ yielded_titles (before ++ [Sent rq])
          = map part_title (take k (story_parts demo_story))
        ∧ book failed_run.2 = book fresh.
Proof.
  assert (failed_run = (Raise (ValueError "Status Code:" (Some 500%Z)), failed_run.2))
    as Hrun by (by vm_compute).
  split; [exact Hrun|].
  exact (@chapter_failure_stops_the_run hangul_ucd net_part12_500 3 demo_story
           demo_credentials fresh _ _ Hrun).
Defined.

(** Every chapter is not found. *)
Lemma not_found_chapters_keep_their_heading_witness :
  ∃ w', @pull hangul_ucd net_404 3
          (add_chapters (StoryDict demo_story) demo_credentials) fresh
        = (Ok (map part_title (story_parts demo_story), None), w')
        ∧ map title (toc (book w')) = map part_title (story_parts demo_story)
        ∧ Forall (λ ch, content ch = lit "<h1>" ++ title ch ++ lit "</h1>")
            (toc (book w')).
Proof.
  apply (@not_found_chapters_keep_their_heading hangul_ucd net_404 3 demo_story
           demo_credentials fresh).
  - cbn. lia.
  - intros h p _. by left.
Defined.

(** The file names of the finished run. *)
Lemma chapter_file_names_are_slugs_witness :
  map file_name (toc (book demo_run.2))
  = [lit "chapter-one.xhtml"; lit "the-end.xhtml"]
  ∧ length (toc (book demo_run.2)) = length (story_parts demo_story)
  ∧ Forall (λ ch, ∃ stem, file_name ch = stem ++ lit ".xhtml"
                          ∧ stem = @slugify hangul_ucd (title ch) false
                          ∧ forallb slug_char stem = true
                          ∧ edges_clean stem = true)
      (toc (book demo_run.2)).
Proof.
  split; [by vm_compute|].
  apply (@chapter_file_names_are_slugs hangul_ucd net_ok 3 demo_story
           demo_credentials fresh demo_run.2 (map part_title (story_parts demo_story))).
  by vm_compute.
Defined.

(** Two titles taken from the two-part story. *)
Lemma taking_the_titles_does_not_attach_witness :
  ∃ g w' w'',
    @pull hangul_ucd net_ok (length (story_parts demo_story))
      (add_chapters (StoryDict demo_story) demo_credentials) fresh
    = (Ok (map part_title (story_parts demo_story), Some g), w')
    ∧ length (gen_chapters g) = length (story_parts demo_story)
    ∧ book w' = book fresh
    ∧ @pull hangul_ucd net_ok 1 g w' = (Ok ([], None), w'')
    ∧ map title (toc (book w'')) = map title (gen_chapters g).
Proof.
  apply (@taking_the_titles_does_not_attach hangul_ucd net_ok demo_story
           demo_credentials fresh).
  - discriminate.
  - intros h p _. reflexivity.
Defined.

(** The requests of the finished run. *)
Lemma one_request_per_part_witness :
  ∃ evs, events demo_run.2 = events fresh ++ evs
         ∧ sent_requests evs
           = map (λ p, get (StoryTextUrl (part_id p)) demo_credentials)
               (story_parts demo_story)
         ∧ length (sent_requests evs) = length (story_parts demo_story).
Proof.
  apply (@one_request_per_part hangul_ucd net_ok 3 demo_story demo_credentials
           fresh demo_run.2 (map part_title (story_parts demo_story))).
  by vm_compute.
Defined.
